(** * abTEM base classes: Event, Cache, memoization, Grid, Accelerator

    A shallow embedding of [abtem/base_classes.py].  Python objects become
    records, attribute assignment becomes explicit state passing, and
    exceptions become the [Raise] branch of [result]; a method that mutates
    its receiver before raising returns the mutated receiver next to the
    exception, so that the state left behind by a failed call can be
    inspected. *)

From Stdlib Require Import ZArith List Bool String PrimFloat FloatOps SpecFloat Lia.
From stdpp Require Import base option list gmap strings.
Import ListNotations.

Open Scope string_scope.
Open Scope list_scope.
Open Scope Z_scope.

(** ** Python values

    A Python [float] is an IEEE binary64 value, a Python [int] is unbounded. *)

Inductive num :=
| PyInt (n : Z)
| PyFloat (x : float).

(** What client code can assign to a grid attribute: [None], a number, a
    sequence of numbers ([tuple], [list] or array), or some other object,
    kept by its [repr]. *)
Inductive pyvalue :=
| PyNone
| PyScalar (x : num)
| PySeq (xs : list num)
| PyOther (repr : string).

(** ** Exceptions and results

    A [RuntimeError] carries its message template and the arguments of
    [str.format], which are not rendered. *)

Inductive exn :=
| RuntimeError (msg : string) (format_args : list pyvalue)
| ZeroDivisionError
| OverflowError
| ValueError
| KeyError
| AttributeError.

Inductive result (A : Type) :=
| Ok (a : A)
| Raise (e : exn).
Arguments Ok {A} a.
Arguments Raise {A} e.

(** The spec's "state error" is a Python [RuntimeError]. *)
Definition is_state_error {A} (r : result A) : Prop :=
  match r with
  | Raise (RuntimeError _ _) => True
  | _ => False
  end.

Definition is_ok {A} (r : result A) : bool :=
  match r with Ok _ => true | Raise _ => false end.

(** ** A state-and-exception monad

    [M S A] is a computation over a mutable receiver of type [S] that either
    returns an [A] or raises, and in both cases leaves a state behind. *)

Definition M (S A : Type) : Type := S -> result A * S.

Definition ret {S A} (a : A) : M S A := fun s => (Ok a, s).
Definition raise {S A} (e : exn) : M S A := fun s => (Raise e, s).
Definition bind {S A B} (m : M S A) (k : A -> M S B) : M S B :=
  fun s => match m s with
           | (Ok a, s') => k a s'
           | (Raise e, s') => (Raise e, s')
           end.
Definition gets {S A} (f : S -> A) : M S A := fun s => (Ok (f s), s).
Definition modify {S} (f : S -> S) : M S unit := fun s => (Ok tt, f s).
Definition lift {S A} (r : result A) : M S A := fun s => (r, s).

Notation "x <- m ;; k" := (bind m (fun x => k))
  (at level 100, m at next level, right associativity).
Notation "m ;;; k" := (bind m (fun _ => k))
  (at level 100, k at level 200, right associativity).

(** [x is None] *)
Definition is_None {A} (x : option A) : bool :=
  match x with
  | None => true
  | Some _ => false
  end.

(** Left-to-right traversals that stop at the first exception, as Python's
    [tuple(map(f, xs))] and [tuple(f(a, b) for a, b in zip(xs, ys))] do;
    [zip] stops at the shorter sequence. *)
Fixpoint mapM {A B} (f : A -> result B) (xs : list A) : result (list B) :=
  match xs with
  | [] => Ok []
  | x :: xs' =>
      match f x with
      | Raise e => Raise e
      | Ok y => match mapM f xs' with
                | Raise e => Raise e
                | Ok ys => Ok (y :: ys)
                end
      end
  end.

Fixpoint zipM {A B C} (f : A -> B -> result C) (xs : list A) (ys : list B)
  : result (list C) :=
  match xs, ys with
  | x :: xs', y :: ys' =>
      match f x y with
      | Raise e => Raise e
      | Ok z => match zipM f xs' ys' with
                | Raise e => Raise e
                | Ok zs => Ok (z :: zs)
                end
      end
  | _, _ => Ok []
  end.

(** ** Arithmetic on Python numbers *)

(** [float(n)] for an int: correctly rounded (to nearest, ties to even), and
    [OverflowError] when the rounded value would not be finite, that is from
    [2^1024 - 2^970] on. *)
Definition float_of_int (n : Z) : result float :=
  if Z.abs n <? 2 ^ 1024 - 2 ^ 970
  then Ok (SF2Prim (binary_normalize prec emax n 0 false))
  else Raise OverflowError.

(** [float(x)] *)
Definition to_float (x : num) : result float :=
  match x with
  | PyInt n => float_of_int n
  | PyFloat f => Ok f
  end.

Definition signed_mantissa (s : bool) (m : positive) : Z :=
  if s then Z.neg m else Z.pos m.

(** [int(x)] for a float: truncation towards zero. *)
Definition int_of_float (x : float) : result Z :=
  match Prim2SF x with
  | S754_nan => Raise ValueError
  | S754_infinity _ => Raise OverflowError
  | S754_zero _ => Ok 0
  | S754_finite s m e =>
      Ok (if 0 <=? e then signed_mantissa s m * 2 ^ e
          else Z.quot (signed_mantissa s m) (2 ^ (- e)))
  end.

(** [int(x)] *)
Definition to_int (x : num) : result Z :=
  match x with
  | PyInt n => Ok n
  | PyFloat f => int_of_float f
  end.

(** [int(np.ceil(x))] *)
Definition int_ceil (x : float) : result Z :=
  match Prim2SF x with
  | S754_nan => Raise ValueError
  | S754_infinity _ => Raise OverflowError
  | S754_zero _ => Ok 0
  | S754_finite s m e =>
      Ok (if 0 <=? e then signed_mantissa s m * 2 ^ e
          else - ((- signed_mantissa s m) / 2 ^ (- e)))
  end.

(** [n * d] for an int [n] and a float [d]: the int is converted first. *)
Definition int_mul_float (n : Z) (d : float) : result float :=
  match float_of_int n with
  | Raise e => Raise e
  | Ok x => Ok (x * d)%float
  end.

(** [l / d] for two floats. *)
Definition float_div (l d : float) : result float :=
  if is_zero d then Raise ZeroDivisionError else Ok (l / d)%float.

(** [l / n] for a float [l] and an int [n]: the int is converted first;
    the converted divisor is zero exactly when [n] is. *)
Definition float_div_int (l : float) (n : Z) : result float :=
  match float_of_int n with
  | Raise e => Raise e
  | Ok x => if n =? 0 then Raise ZeroDivisionError else Ok (l / x)%float
  end.

(** [x != y] on attributes that are [None] or a tuple.  Tuples compare item
    by item with [PyObject_RichCompareBool(v, w, Py_EQ)]: two items count as
    equal when they are the same object, or when [v == w].  [item_eqb i] is
    that test on the two items at position [i]. *)
Fixpoint tuple_eqb {A} (item_eqb : nat -> A -> A -> bool) (i : nat)
  (xs ys : list A) : bool :=
  match xs, ys with
  | [], [] => true
  | x :: xs', y :: ys' => item_eqb i x y && tuple_eqb item_eqb (S i) xs' ys'
  | _, _ => false
  end.

Definition py_ne {A} (item_eqb : nat -> A -> A -> bool)
  (x y : option (list A)) : bool :=
  match x, y with
  | None, None => false
  | Some xs, Some ys => negb (tuple_eqb item_eqb 0 xs ys)
  | _, _ => true
  end.

(** Items that are ints: an int equals itself, so identity adds nothing. *)
Definition int_item_eqb (i : nat) (x y : Z) : bool := x =? y.

(** Items that are floats.  A float equals itself unless it is NaN, so
    identity decides for NaN only.  Floats are held as values here; which
    items of the two tuples are one and the same object is given from
    outside, by position: [same_object i] for the items at position [i].
    Two objects that are the same hold the same float. *)
Definition float_item_eqb (same_object : nat -> bool) (i : nat)
  (x y : float) : bool :=
  (same_object i && PrimFloat.Leibniz.eqb x y) || (x =? y)%float.

(** ** Cache *)

Section cache.
Context {K V : Type} `{EqDecision K}.

(** An [OrderedDict]: the items in insertion order. *)
Definition OrderedDict : Type := list (K * V).

(** [d[key] = value]: an existing key keeps its position. *)
Fixpoint od_setitem (d : OrderedDict) (key : K) (value : V) : OrderedDict :=
  match d with
  | [] => [(key, value)]
  | (k, v) :: d' =>
      if decide (k = key) then (k, value) :: d'
      else (k, v) :: od_setitem d' key value
  end.

(** [key in d] *)
Fixpoint od_contains (d : OrderedDict) (key : K) : bool :=
  match d with
  | [] => false
  | (k, _) :: d' => if decide (k = key) then true else od_contains d' key
  end.

(** [d[key]] *)
Fixpoint od_getitem (d : OrderedDict) (key : K) : result V :=
  match d with
  | [] => Raise KeyError
  | (k, v) :: d' => if decide (k = key) then Ok v else od_getitem d' key
  end.

Record Cache := mkCache {
  _max_size : option Z;
  _cached : OrderedDict;
  _hits : Z;
  _misses : Z
}.

Definition Cache_init (max_size : option Z) : Cache :=
  {| _max_size := max_size; _cached := []; _hits := 0; _misses := 0 |}.

Definition cached (self : Cache) : OrderedDict := _cached self.
Definition hits (self : Cache) : Z := _hits self.
(** The property returns the hit counter, as the source does. *)
Definition misses (self : Cache) : Z := _hits self.
Definition len (self : Cache) : Z := Z.of_nat (length (_cached self)).

Definition with_cached (self : Cache) (d : OrderedDict) : Cache :=
  {| _max_size := _max_size self; _cached := d;
     _hits := _hits self; _misses := _misses self |}.

(** [while len(self) > self._max_size: self._cached.popitem(last=False)];
    [popitem] on an empty dictionary raises [KeyError]. *)
Fixpoint popitem_loop (max_size : Z) (d : OrderedDict) : result unit * OrderedDict :=
  if Z.of_nat (length d) >? max_size then
    match d with
    | [] => (Raise KeyError, [])
    | _ :: d' => popitem_loop max_size d'
    end
  else (Ok tt, d).

Definition _check_size : M Cache unit :=
  fun self =>
    match _max_size self with
    | None => (Ok tt, self)
    | Some max_size =>
        let '(r, d) := popitem_loop max_size (_cached self) in
        (r, with_cached self d)
    end.

Definition insert (key : K) (value : V) : M Cache unit :=
  modify (fun self => with_cached self (od_setitem (_cached self) key value)) ;;;
  _check_size.

Definition retrieve (key : K) : M Cache V :=
  fun self => (od_getitem (_cached self) key, self).

Definition clear (self : Cache) : Cache :=
  {| _max_size := _max_size self; _cached := []; _hits := 0; _misses := 0 |}.

End cache.

Arguments OrderedDict : clear implicits.
Arguments Cache : clear implicits.

(** ** Event and callbacks

    Cache objects live in a store and are referred to by address, so that a
    callback registered on an event and the owner of the cache see the same
    object.  The callbacks the module creates are those of
    [cache_clear_callback]. *)

Abbreviation Store K V := (gmap nat (Cache K V)) (only parsing).

Inductive callback :=
| cache_clear_callback (target_cache : nat).

(** [callback(notifier, property_name, change)] *)
Definition call {K V} (cb : callback) (property_name : string) (change : bool)
  (st : Store K V) : Store K V :=
  match cb with
  | cache_clear_callback target_cache =>
      if change then alter clear target_cache st else st
  end.

Record Event := mkEvent {
  callbacks : list callback;
  _notify_count : Z
}.

Definition Event_init : Event := {| callbacks := []; _notify_count := 0 |}.
Definition notify_count (self : Event) : Z := _notify_count self.

Definition notify {K V} (self : Event) (property_name : string) (change : bool)
  (st : Store K V) : Event * Store K V :=
  ({| callbacks := callbacks self; _notify_count := _notify_count self + 1 |},
   fold_left (fun s cb => call cb property_name change s) (callbacks self) st).

Definition register (self : Event) (cbs : list callback) : Event :=
  {| callbacks := callbacks self ++ cbs; _notify_count := _notify_count self |}.

(** [watched_method(event)(func)]: run [func] on the instance, then notify
    the instance's event with [change=True]; when [func] raises, the event
    is not notified. *)
Definition watched_method {K V I : Type}
  (event : I -> Event) (set_event : I -> Event -> I)
  (property_name : string) (func : M I unit) : M (I * Store K V) unit :=
  fun '(instance, st) =>
    match func instance with
    | (Raise e, instance') => (Raise e, (instance', st))
    | (Ok r, instance') =>
        let '(ev, st') := notify (event instance') property_name true st in
        (Ok r, (set_event instance' ev, st'))
    end.


(** [watched_property(event)(func)]: read the old value of the property,
    run [func], and notify the instance's event with
    [change = np.any(old != value)], where [value] is the argument of the
    call; [ne] is that comparison.  When [func] raises, the event is not
    notified. *)
Definition watched_property {K V I X : Type}
  (event : I -> Event) (set_event : I -> Event -> I)
  (property_name : string) (getter : I -> X) (ne : X -> X -> bool)
  (func : X -> M I unit) (value : X) : M (I * Store K V) unit :=
  fun '(instance, st) =>
    let old := getter instance in
    match func value instance with
    | (Raise e, instance') => (Raise e, (instance', st))
    | (Ok r, instance') =>
        let change := ne old value in
        let '(ev, st') := notify (event instance') property_name change st in
        (Ok r, (set_event instance' ev, st'))
    end.

(** ** Memoized methods

    [cached_method(target_cache_property)(func)]: the key is the function
    object followed by the arguments after the receiver.  The function object
    is given by its identity [func_id] and its code [func], a method that
    may read and update its receiver. *)

Definition with_hits {K V} (self : Cache K V) (n : Z) : Cache K V :=
  {| _max_size := _max_size self; _cached := _cached self;
     _hits := n; _misses := _misses self |}.

Definition with_misses {K V} (self : Cache K V) (n : Z) : Cache K V :=
  {| _max_size := _max_size self; _cached := _cached self;
     _hits := _hits self; _misses := n |}.

Definition cached_method {F A V I : Type} `{EqDecision F} `{EqDecision A}
  (target_cache_property : I -> nat)
  (func_id : F) (func : A -> M I V) (args : A) : M (I * Store (F * A) V) V :=
  fun '(self, st) =>
    let address := target_cache_property self in
    match st !! address with
    | None => (Raise AttributeError, (self, st))
    | Some cache =>
        let key := (func_id, args) in
        if od_contains (cached cache) key then
          match retrieve key cache with
          | (Raise e, cache') => (Raise e, (self, <[address := cache']> st))
          | (Ok result, cache') =>
              (Ok result,
               (self, <[address := with_hits cache' (_hits cache' + 1)]> st))
          end
        else
          match func args self with
          | (Raise e, self') => (Raise e, (self', st))
          | (Ok result, self') =>
              match insert key result cache with
              | (Raise e, cache') => (Raise e, (self', <[address := cache']> st))
              | (Ok _, cache') =>
                  (Ok result,
                   (self', <[address := with_misses cache' (_misses cache' + 1)]> st))
              end
          end
    end.

(** ** Grid *)

Module Grid.

Record t := mk {
  changed : Event;
  _dimensions : Z;
  _endpoint : bool;
  _lock_extent : bool;
  _lock_gpts : bool;
  _lock_sampling : bool;
  _extent : option (list float);
  _gpts : option (list Z);
  _sampling : option (list float)
}.

(** The read-only properties. *)
Definition endpoint (self : t) : bool := _endpoint self.
Definition dimensions (self : t) : Z := _dimensions self.
Definition extent (self : t) : option (list float) := _extent self.
Definition gpts (self : t) : option (list Z) := _gpts self.
Definition sampling (self : t) : option (list float) := _sampling self.

(** Attribute assignments. *)
Definition with_changed (self : t) (ev : Event) : t :=
  mk ev (_dimensions self) (_endpoint self) (_lock_extent self)
     (_lock_gpts self) (_lock_sampling self)
     (_extent self) (_gpts self) (_sampling self).
Definition with_extent (value : option (list float)) (self : t) : t :=
  mk (changed self) (_dimensions self) (_endpoint self) (_lock_extent self)
     (_lock_gpts self) (_lock_sampling self)
     value (_gpts self) (_sampling self).
Definition with_gpts (value : option (list Z)) (self : t) : t :=
  mk (changed self) (_dimensions self) (_endpoint self) (_lock_extent self)
     (_lock_gpts self) (_lock_sampling self)
     (_extent self) value (_sampling self).
Definition with_sampling (value : option (list float)) (self : t) : t :=
  mk (changed self) (_dimensions self) (_endpoint self) (_lock_extent self)
     (_lock_gpts self) (_lock_sampling self)
     (_extent self) (_gpts self) value.

(** [_validate(value, dtype)] for a grid of the given number of dimensions. *)
Definition _validate {A} (dimensions : Z) (value : pyvalue)
  (dtype : num -> result A) : result (option (list A)) :=
  match value with
  | PySeq xs =>
      if negb (Z.of_nat (length xs) =? dimensions) then
        Raise (RuntimeError "Grid value length of {} != {}"
                 [PyScalar (PyInt (Z.of_nat (length xs)));
                  PyScalar (PyInt dimensions)])
      else
        match mapM dtype xs with
        | Raise e => Raise e
        | Ok ys => Ok (Some ys)
        end
  | PyScalar x =>
      match dtype x with
      | Raise e => Raise e
      | Ok y => Ok (Some (repeat y (Z.to_nat dimensions)))
      end
  | PyNone => Ok None
  | PyOther _ => Raise (RuntimeError "Invalid grid property ({})" [value])
  end.

Definition _adjust_extent (gpts : option (list Z))
  (sampling : option (list float)) : M t unit :=
  match gpts, sampling with
  | Some ns, Some ds =>
      endpoint <- gets _endpoint ;;
      e <- lift (if endpoint
                 then zipM (fun n d => int_mul_float (n - 1) d) ns ds
                 else zipM (fun n d => int_mul_float n d) ns ds) ;;
      modify (with_extent (Some e))
  | _, _ => ret tt
  end.

Definition _adjust_gpts (extent : option (list float))
  (sampling : option (list float)) : M t unit :=
  match extent, sampling with
  | Some ls, Some ds =>
      endpoint <- gets _endpoint ;;
      n <- lift (if endpoint
                 then zipM (fun l d =>
                              match float_div l d with
                              | Raise e => Raise e
                              | Ok q => match int_ceil q with
                                        | Raise e => Raise e
                                        | Ok c => Ok (c + 1)
                                        end
                              end) ls ds
                 else zipM (fun l d =>
                              match float_div l d with
                              | Raise e => Raise e
                              | Ok q => int_ceil q
                              end) ls ds) ;;
      modify (with_gpts (Some n))
  | _, _ => ret tt
  end.

Definition _adjust_sampling (extent : option (list float))
  (gpts : option (list Z)) : M t unit :=
  match extent, gpts with
  | Some ls, Some ns =>
      endpoint <- gets _endpoint ;;
      s <- lift (if endpoint
                 then zipM (fun l n => float_div_int l (n - 1)) ls ns
                 else zipM (fun l n => float_div_int l n) ls ns) ;;
      modify (with_sampling (Some s))
  | _, _ => ret tt
  end.

(** [Grid(extent, gpts, sampling, dimensions, endpoint, lock_extent,
    lock_gpts, lock_sampling)] *)
Definition __init__ (extent gpts sampling : pyvalue) (dimensions : Z)
  (endpoint lock_extent lock_gpts lock_sampling : bool) : result t :=
  if Z.b2z lock_extent + Z.b2z lock_gpts + Z.b2z lock_sampling >? 1 then
    Raise (RuntimeError "At most one of extent, gpts, and sampling may be locked" [])
  else
    match _validate dimensions extent to_float with
    | Raise e => Raise e
    | Ok e =>
    match _validate dimensions gpts to_int with
    | Raise e => Raise e
    | Ok n =>
    match _validate dimensions sampling to_float with
    | Raise e => Raise e
    | Ok s =>
        let self := mk Event_init dimensions endpoint
                      lock_extent lock_gpts lock_sampling e n s in
        let body : M t unit :=
          (e <- gets Grid.extent ;;
           if is_None e
           then (n <- gets Grid.gpts ;; s <- gets Grid.sampling ;;
                 _adjust_extent n s)
           else ret tt) ;;;
          (n <- gets Grid.gpts ;;
           if is_None n
           then (e <- gets Grid.extent ;; s <- gets Grid.sampling ;;
                 _adjust_gpts e s)
           else ret tt) ;;;
          (e <- gets Grid.extent ;; n <- gets Grid.gpts ;;
           _adjust_sampling e n) in
        match body self with
        | (Raise e, _) => Raise e
        | (Ok _, self') => Ok self'
        end
    end end end.

(** The setters.  [extent_fset], [gpts_fset] and [sampling_fset] are the
    functions as written; [set_extent], [set_gpts] and [set_sampling] are
    what the [watched_method('changed')] decorator makes of them. *)

Definition extent_fset (extent : pyvalue) : M t unit :=
  lock <- gets _lock_extent ;;
  if lock then raise (RuntimeError "Extent cannot be modified" []) else
  dims <- gets dimensions ;;
  extent <- lift (_validate dims extent to_float) ;;
  lock_sampling <- gets _lock_sampling ;;
  n <- gets gpts ;;
  (if lock_sampling || is_None n then
     (s <- gets sampling ;; _adjust_gpts extent s) ;;;
     (n <- gets gpts ;; _adjust_sampling extent n)
   else if negb (is_None n) then
     (n <- gets gpts ;; _adjust_sampling extent n)
   else ret tt) ;;;
  modify (with_extent extent).

Definition gpts_fset (gpts : pyvalue) : M t unit :=
  lock <- gets _lock_gpts ;;
  if lock then raise (RuntimeError "Grid gpts cannot be modified" []) else
  dims <- gets dimensions ;;
  gpts <- lift (_validate dims gpts to_int) ;;
  lock_sampling <- gets _lock_sampling ;;
  e <- gets extent ;;
  (if lock_sampling then
     (s <- gets sampling ;; _adjust_extent gpts s)
   else if negb (is_None e) then
     (e <- gets extent ;; _adjust_sampling e gpts)
   else
     (s <- gets sampling ;; _adjust_extent gpts s)) ;;;
  modify (with_gpts gpts).

Definition sampling_fset (sampling : pyvalue) : M t unit :=
  lock <- gets _lock_sampling ;;
  if lock then raise (RuntimeError "Sampling cannot be modified" []) else
  dims <- gets dimensions ;;
  sampling <- lift (_validate dims sampling to_float) ;;
  lock_gpts <- gets _lock_gpts ;;
  e <- gets extent ;;
  (if lock_gpts then
     (n <- gets gpts ;; _adjust_extent n sampling)
   else if negb (is_None e) then
     (e <- gets extent ;; _adjust_gpts e sampling)
   else
     (n <- gets gpts ;; _adjust_extent n sampling)) ;;;
  (e <- gets extent ;; n <- gets gpts ;; _adjust_sampling e n).

Definition set_extent {K V} (value : pyvalue) : M (t * Store K V) unit :=
  watched_method changed with_changed "extent" (extent_fset value).
Definition set_gpts {K V} (value : pyvalue) : M (t * Store K V) unit :=
  watched_method changed with_changed "gpts" (gpts_fset value).
Definition set_sampling {K V} (value : pyvalue) : M (t * Store K V) unit :=
  watched_method changed with_changed "sampling" (sampling_fset value).

(** The three axis descriptors, as attribute names. *)
Inductive attr := Extent | Gpts | Sampling.

(** [setattr(grid, name, value)] *)
Definition setattr {K V} (name : attr) (value : pyvalue) : M (t * Store K V) unit :=
  match name with
  | Extent => set_extent value
  | Gpts => set_gpts value
  | Sampling => set_sampling value
  end.

Definition locked (name : attr) (self : t) : bool :=
  match name with
  | Extent => _lock_extent self
  | Gpts => _lock_gpts self
  | Sampling => _lock_sampling self
  end.

(** A stored tuple, as the value an assignment receives. *)
Definition py_of_floats (x : option (list float)) : pyvalue :=
  match x with
  | None => PyNone
  | Some ls => PySeq (map PyFloat ls)
  end.
Definition py_of_ints (x : option (list Z)) : pyvalue :=
  match x with
  | None => PyNone
  | Some ns => PySeq (map PyInt ns)
  end.

(** [getattr(grid, name)] *)
Definition getattr (name : attr) (self : t) : pyvalue :=
  match name with
  | Extent => py_of_floats (extent self)
  | Gpts => py_of_ints (gpts self)
  | Sampling => py_of_floats (sampling self)
  end.

Definition check_is_defined (self : t) : result unit :=
  if is_None (extent self) then
    Raise (RuntimeError "Grid extent is not defined" [])
  else if is_None (gpts self) then
    Raise (RuntimeError "Grid gpts are not defined" [])
  else Ok tt.

(** [same_object i] tells whether item [i] of [self.extent] and item [i]
    of [other.extent] are the same object when the method is called. *)
Definition check_match (same_object : nat -> bool) (self other : t)
  : result unit :=
  if negb (is_None (extent self)) && negb (is_None (extent other))
     && py_ne (float_item_eqb same_object) (extent self) (extent other) then
    Raise (RuntimeError "Inconsistent grid extent ({} != {})"
             [py_of_floats (extent self); py_of_floats (extent other)])
  else if negb (is_None (gpts self)) && negb (is_None (gpts other))
          && py_ne int_item_eqb (gpts self) (gpts other) then
    Raise (RuntimeError "Inconsistent grid gpts ({} != {})"
             [py_of_ints (gpts self); py_of_ints (gpts other)])
  else Ok tt.

(** [self.match(other, check_match)] on two distinct grid objects; the state
    is [(self, other, store)]. *)
Definition on_self {K V A} (m : M (t * Store K V) A) : M (t * t * Store K V) A :=
  fun '(self, other, st) =>
    let '(r, (self', st')) := m (self, st) in (r, (self', other, st')).
Definition on_other {K V A} (m : M (t * Store K V) A) : M (t * t * Store K V) A :=
  fun '(self, other, st) =>
    let '(r, (other', st')) := m (other, st) in (r, (self, other', st')).
Definition self_ {K V} : t * t * Store K V -> t := fun '(self, _, _) => self.
Definition other_ {K V} : t * t * Store K V -> t := fun '(_, other, _) => other.

Definition match_ {K V} (same_object : nat -> bool) (check_match : bool)
  : M (t * t * Store K V) unit :=
  (if check_match
   then (self <- gets self_ ;; other <- gets other_ ;;
         lift (Grid.check_match same_object self other))
   else ret tt) ;;;
  (self_extent <- gets (fun w => extent (self_ w)) ;;
   other_extent <- gets (fun w => extent (other_ w)) ;;
   if is_None self_extent && is_None other_extent then
     raise (RuntimeError "Grid extent cannot be inferred" [])
   else if is_None other_extent then
     on_other (set_extent (py_of_floats self_extent))
   else if py_ne (float_item_eqb same_object) self_extent other_extent then
     on_self (set_extent (py_of_floats other_extent))
   else ret tt) ;;;
  (self_gpts <- gets (fun w => gpts (self_ w)) ;;
   other_gpts <- gets (fun w => gpts (other_ w)) ;;
   if is_None self_gpts && is_None other_gpts then
     raise (RuntimeError "Grid gpts cannot be inferred" [])
   else if is_None other_gpts then
     on_other (set_gpts (py_of_ints self_gpts))
   else if py_ne int_item_eqb self_gpts other_gpts then
     on_self (set_gpts (py_of_ints other_gpts))
   else ret tt).

(** [copy(self)], that is [self.__copy__()]: a new grid built by the
    constructor from the attributes of this one. *)
Definition __copy__ (self : t) : result t :=
  __init__ (py_of_floats (extent self)) (py_of_ints (gpts self))
    (py_of_floats (sampling self)) (dimensions self) (endpoint self)
    (_lock_extent self) (_lock_gpts self) (_lock_sampling self).

Definition copy (self : t) : result t := __copy__ self.

End Grid.

(** ** Accelerator *)

Module Accelerator.

Record t := mk {
  changed : Event;
  _energy : option float;
  _lock_energy : bool
}.

Definition energy (self : t) : option float := _energy self.

Definition with_changed (self : t) (ev : Event) : t :=
  mk ev (_energy self) (_lock_energy self).
Definition with_energy (value : option float) (self : t) : t :=
  mk (changed self) value (_lock_energy self).

(** [float(energy)] unless [energy is None] *)
Definition float_or_None (value : option num) : result (option float) :=
  match value with
  | None => Ok None
  | Some x => match to_float x with
              | Raise e => Raise e
              | Ok f => Ok (Some f)
              end
  end.

Definition __init__ (energy : option num) (lock_energy : bool) : result t :=
  match float_or_None energy with
  | Raise e => Raise e
  | Ok energy => Ok (mk Event_init energy lock_energy)
  end.

Definition energy_fset (value : option num) : M t unit :=
  lock <- gets _lock_energy ;;
  if lock then raise (RuntimeError "Energy cannot be modified" []) else
  value <- lift (float_or_None value) ;;
  modify (with_energy value).

Definition set_energy {K V} (value : option num) : M (t * Store K V) unit :=
  watched_method changed with_changed "energy" (energy_fset value).

Definition check_is_defined (self : t) : result unit :=
  if is_None (energy self) then Raise (RuntimeError "Energy is not defined" [])
  else Ok tt.

Definition check_match (self other : t) : result unit :=
  match energy self, energy other with
  | Some a, Some b =>
      if negb (a =? b)%float then Raise (RuntimeError "Inconsistent energies" [])
      else Ok tt
  | _, _ => Ok tt
  end.

Definition on_self {K V A} (m : M (t * Store K V) A) : M (t * t * Store K V) A :=
  fun '(self, other, st) =>
    let '(r, (self', st')) := m (self, st) in (r, (self', other, st')).
Definition on_other {K V A} (m : M (t * Store K V) A) : M (t * t * Store K V) A :=
  fun '(self, other, st) =>
    let '(r, (other', st')) := m (other, st) in (r, (self, other', st')).
Definition self_ {K V} : t * t * Store K V -> t := fun '(self, _, _) => self.
Definition other_ {K V} : t * t * Store K V -> t := fun '(_, other, _) => other.

(** [self.match(other, check_match)] on two distinct accelerator objects. *)
Definition match_ {K V} (check_match : bool) : M (t * t * Store K V) unit :=
  (if check_match
   then (self <- gets self_ ;; other <- gets other_ ;;
         lift (Accelerator.check_match self other))
   else ret tt) ;;;
  (self_energy <- gets (fun w => energy (self_ w)) ;;
   other_energy <- gets (fun w => energy (other_ w)) ;;
   if is_None self_energy && is_None other_energy then
     raise (RuntimeError "Energy cannot be inferred" [])
   else ret tt) ;;;
  (self_energy <- gets (fun w => energy (self_ w)) ;;
   other_energy <- gets (fun w => energy (other_ w)) ;;
   if is_None other_energy then
     on_other (set_energy (option_map PyFloat self_energy))
   else
     on_self (set_energy (option_map PyFloat other_energy))).

(** [copy(self)], that is [self.__class__(self.energy)]: the lock is not
    passed on. *)
Definition __copy__ (self : t) : result t :=
  __init__ (option_map PyFloat (energy self)) false.

Definition copy (self : t) : result t := __copy__ self.

(** The [wavelength] and [sigma] properties.  The conversions
    [energy2wavelength] and [energy2sigma] of [abtem.utils] are parameters:
    functions of the stored energy that return a float or raise. *)
Definition wavelength (energy2wavelength : option float -> result float)
  (self : t) : result float :=
  match check_is_defined self with
  | Raise e => Raise e
  | Ok _ => energy2wavelength (energy self)
  end.

Definition sigma (energy2sigma : option float -> result float)
  (self : t) : result float :=
  match check_is_defined self with
  | Raise e => Raise e
  | Ok _ => energy2sigma (energy self)
  end.

End Accelerator.

(** ** Objects that own a grid and a cache

    A simulation object built on [HasGridMixin]: it holds a grid in [_grid],
    a property [cache] holding the address of its cache, and further
    attributes of its own. *)

Module HasGridMixin.

Record t (T : Type) := mk {
  _grid : Grid.t;
  _cache : nat;
  attrs : T
}.
Arguments mk {T}.
Arguments _grid {T}.
Arguments _cache {T}.
Arguments attrs {T}.

Definition grid {T} (self : t T) : Grid.t := _grid self.
Definition cache {T} (self : t T) : nat := _cache self.

(** [DelegatedAttribute('grid', name).__get__(instance, owner)] *)
Definition delegated_get {T} (name : Grid.attr) (instance : t T) : pyvalue :=
  Grid.getattr name (grid instance).

(** [DelegatedAttribute('grid', name).__set__(instance, value)]: the grid
    the instance refers to is updated in place. *)
Definition delegated_set {K V T} (name : Grid.attr) (value : pyvalue)
  : M (t T * Store K V) unit :=
  fun '(instance, st) =>
    let '(r, (g, st')) := Grid.setattr name value (grid instance, st) in
    (r, (mk g (_cache instance) (attrs instance), st')).

(** A method of the object that reads the grid and its arguments, and reads
    and updates the object's own attributes. *)
Definition method {T A V} (body : Grid.t -> A -> M T V) : A -> M (t T) V :=
  fun args self =>
    let '(r, a) := body (grid self) args (attrs self) in
    (r, mk (_grid self) (_cache self) a).

End HasGridMixin.

(** ** Sequences of calls *)

(** [for key, value in items: cache.insert(key, value)] *)
Fixpoint insert_all {K V} `{EqDecision K} (items : list (K * V))
  : M (Cache K V) unit :=
  match items with
  | [] => ret tt
  | (key, value) :: items' => insert key value ;;; insert_all items'
  end.

(** * Vocabulary for the properties *)

(** The exceptions arithmetic can raise. *)
Definition arith_error (e : exn) : Prop :=
  match e with
  | ZeroDivisionError | OverflowError | ValueError => True
  | _ => False
  end.

(** The exceptions a grid setter can raise: arithmetic ones, and the
    [RuntimeError]s of the lock checks and of [_validate]. *)
Definition setter_error (e : exn) : Prop :=
  match e with
  | RuntimeError msg _ =>
      In msg ["Extent cannot be modified"; "Grid gpts cannot be modified";
              "Sampling cannot be modified"; "Grid value length of {} != {}";
              "Invalid grid property ({})"]
  | e => arith_error e
  end.

(** [keeps R E m]: running [m] relates the final state to the initial one by
    [R], and any exception it raises satisfies [E]. *)
Definition keeps {S A} (R : S -> S -> Prop) (E : exn -> Prop) (m : M S A) : Prop :=
  forall s, R s (m s).2 /\ forall e, (m s).1 = Raise e -> E e.

(** What no grid method touches after construction, apart from the event
    counter: the callbacks, the shape, and the lock flags. *)
Definition grid_frame (g g' : Grid.t) : Prop :=
  Grid.changed g' = Grid.changed g /\
  Grid._dimensions g' = Grid._dimensions g /\
  Grid._endpoint g' = Grid._endpoint g /\
  Grid._lock_extent g' = Grid._lock_extent g /\
  Grid._lock_gpts g' = Grid._lock_gpts g /\
  Grid._lock_sampling g' = Grid._lock_sampling g.

(** The element-wise relations between the three axis descriptors, as the
    [_adjust_*] methods compute them. *)
Definition extent_of (endpoint : bool) (ns : list Z) (ds : list float)
  : result (list float) :=
  if endpoint then zipM (fun n d => int_mul_float (n - 1) d) ns ds
  else zipM (fun n d => int_mul_float n d) ns ds.

Definition gpts_of (endpoint : bool) (ls ds : list float) : result (list Z) :=
  if endpoint
  then zipM (fun l d =>
               match float_div l d with
               | Raise e => Raise e
               | Ok q => match int_ceil q with
                         | Raise e => Raise e
                         | Ok c => Ok (c + 1)
                         end
               end) ls ds
  else zipM (fun l d =>
               match float_div l d with
               | Raise e => Raise e
               | Ok q => int_ceil q
               end) ls ds.

Definition sampling_of (endpoint : bool) (ls : list float) (ns : list Z)
  : result (list float) :=
  if endpoint then zipM (fun l n => float_div_int l (n - 1)) ls ns
  else zipM (fun l n => float_div_int l n) ls ns.

(** A grid-point count the sampling can be derived from: the divisor
    ([n], or [n - 1] with the endpoint) is not zero and converts to a float. *)
Definition divisor_ok (endpoint : bool) (n : Z) : Prop :=
  let m := if endpoint then n - 1 else n in
  m <> 0 /\ Z.abs m < 2 ^ 1024 - 2 ^ 970.

(** The function a setter decorates, and the name it notifies with. *)
Definition fset (name : Grid.attr) (value : pyvalue) : M Grid.t unit :=
  match name with
  | Grid.Extent => Grid.extent_fset value
  | Grid.Gpts => Grid.gpts_fset value
  | Grid.Sampling => Grid.sampling_fset value
  end.

Definition property_name (name : Grid.attr) : string :=
  match name with
  | Grid.Extent => "extent"
  | Grid.Gpts => "gpts"
  | Grid.Sampling => "sampling"
  end.

Definition locked_message (name : Grid.attr) : string :=
  match name with
  | Grid.Extent => "Extent cannot be modified"
  | Grid.Gpts => "Grid gpts cannot be modified"
  | Grid.Sampling => "Sampling cannot be modified"
  end.

(** ** Example objects *)

(** [Grid(extent=10, gpts=8)] and [Grid(extent=20, gpts=16)] *)
Definition grid_10_8 : Grid.t :=
  Grid.mk Event_init 2 false false false false
    (Some [10; 10]%float) (Some [8; 8]) (Some [1.25; 1.25]%float).
Definition grid_20_16 : Grid.t :=
  Grid.mk Event_init 2 false false false false
    (Some [20; 20]%float) (Some [16; 16]) (Some [1.25; 1.25]%float).

(** [Grid(extent=10)], [Grid()] and [Grid(sampling=0.5)] *)
Definition grid_10 : Grid.t :=
  Grid.mk Event_init 2 false false false false (Some [10; 10]%float) None None.
Definition grid_empty : Grid.t :=
  Grid.mk Event_init 2 false false false false None None None.
Definition grid_s05 : Grid.t :=
  Grid.mk Event_init 2 false false false false None None (Some [0.5; 0.5]%float).

(** [Grid(sampling=0.75, lock_sampling=True)] *)
Definition grid_s075_locked : Grid.t :=
  Grid.mk Event_init 2 false false false true None None (Some [0.75; 0.75]%float).

(** [Grid(extent=10, gpts=8, lock_extent=True)] *)
Definition grid_10_8_locked : Grid.t :=
  Grid.mk Event_init 2 false true false false
    (Some [10; 10]%float) (Some [8; 8]) (Some [1.25; 1.25]%float).

(** An object with [Grid(extent=10, gpts=8)], its cache at address 0, the
    invalidation callback of that cache registered on the grid's event, and
    a counter of the runs of its method as its own attribute. *)
Definition receiver_0 : HasGridMixin.t nat :=
  HasGridMixin.mk
    (Grid.with_changed grid_10_8 (register Event_init [cache_clear_callback 0]))
    0%nat 0%nat.
Definition store_0 : gmap nat (Cache (nat * nat) nat) :=
  {[ 0%nat := Cache_init None ]}.
Definition count_runs (g : Grid.t) (args : nat) : M nat nat :=
  fun runs => (Ok (args + runs)%nat, S runs).

(** [Accelerator(100.0)], [Accelerator()], [Accelerator(lock_energy=True)] *)
Definition acc_100 : Accelerator.t :=
  Accelerator.mk Event_init (Some 100%float) false.
Definition acc_empty : Accelerator.t := Accelerator.mk Event_init None false.
Definition acc_empty_locked : Accelerator.t :=
  Accelerator.mk Event_init None true.
Definition acc_300 : Accelerator.t :=
  Accelerator.mk Event_init (Some 300%float) false.
(** [Accelerator(100.0, lock_energy=True)] *)
Definition acc_100_locked : Accelerator.t :=
  Accelerator.mk Event_init (Some 100%float) true.

(** [Grid(sampling=0.25)], [Grid(lock_extent=True)] and
    [Grid(extent=math.nan, gpts=4)] *)
Definition grid_s025 : Grid.t :=
  Grid.mk Event_init 2 false false false false
    None None (Some [0.25; 0.25]%float).
Definition grid_empty_locked : Grid.t :=
  Grid.mk Event_init 2 false true false false None None None.
Definition grid_nan_4 : Grid.t :=
  Grid.mk Event_init 2 false false false false
    (Some [nan; nan]%float) (Some [4; 4]) (Some [nan; nan]%float).

(** Two grids built from separate arguments share no float object; two
    grids built from one float object, as [Grid(extent=x)] twice for one
    float [x], share it at every position. *)
Definition distinct_objects : nat -> bool := fun _ => false.
Definition shared_objects : nat -> bool := fun _ => true.

(** A second object holding the cache at address 0, and a second method. *)
Definition receiver_1 : HasGridMixin.t nat :=
  HasGridMixin.mk grid_20_16 0%nat 7%nat.
Definition count_twice (g : Grid.t) (args : nat) : M nat nat :=
  fun runs => (Ok (2 * args + runs)%nat, S runs).

(** ** Invariants of a grid *)

(** A descriptor that is undefined or has [d] entries. *)
Definition shaped {A} (d : nat) (x : option (list A)) : Prop :=
  forall l, x = Some l -> length l = d.

(** Every defined descriptor has as many entries as the grid has
    dimensions. *)
Definition grid_shape (g : Grid.t) : Prop :=
  shaped (Z.to_nat (Grid.dimensions g)) (Grid.extent g) /\
  shaped (Z.to_nat (Grid.dimensions g)) (Grid.gpts g) /\
  shaped (Z.to_nat (Grid.dimensions g)) (Grid.sampling g).

(** Whenever extent and gpts are defined, the sampling is the one the code
    derives from them. *)
Definition grid_consistent (g : Grid.t) : Prop :=
  forall e n, Grid.extent g = Some e -> Grid.gpts g = Some n ->
    exists s, Grid.sampling g = Some s /\
              sampling_of (Grid.endpoint g) e n = Ok s.

(** What nothing changes after construction: the shape and the locks. *)
Definition grid_fixed (g g' : Grid.t) : Prop :=
  Grid.dimensions g' = Grid.dimensions g /\
  Grid.endpoint g' = Grid.endpoint g /\
  Grid._lock_extent g' = Grid._lock_extent g /\
  Grid._lock_gpts g' = Grid._lock_gpts g /\
  Grid._lock_sampling g' = Grid._lock_sampling g.

(** The same for the two grids of a [match]. *)
Definition pair_fixed {K V} (w w' : Grid.t * Grid.t * Store K V) : Prop :=
  grid_fixed (Grid.self_ w) (Grid.self_ w') /\
  grid_fixed (Grid.other_ w) (Grid.other_ w').

Definition lock_count (g : Grid.t) : Z :=
  Z.b2z (Grid._lock_extent g) + Z.b2z (Grid._lock_gpts g)
  + Z.b2z (Grid._lock_sampling g).

(** * Properties *)

(** ** The ordered dictionary and the cache *)

Section cache_facts.
Context {K V : Type} `{EqDecision K}.
Implicit Types (d : OrderedDict K V) (c : Cache K V) (key : K) (value : V).

Lemma popitem_loop_unfold (max_size : Z) d :
  popitem_loop max_size d =
  if Z.of_nat (length d) >? max_size then
    match d with
    | [] => (Raise KeyError, [])
    | _ :: d' => popitem_loop max_size d'
    end
  else (Ok tt, d).
Proof. destruct d; reflexivity. Qed.

Lemma popitem_loop_bounded (k : nat) d :
  popitem_loop (Z.of_nat k) d = (Ok tt, drop (length d - k) d).
Proof.
  induction d as [|kv d IH]; rewrite popitem_loop_unfold.
  - case Z.gtb_spec; simpl; [lia | reflexivity].
  - case Z.gtb_spec; intros Hgt.
    + rewrite IH. simpl in Hgt. simpl length.
      replace (S (length d) - k)%nat with (S (length d - k)) by lia.
      reflexivity.
    + simpl in Hgt. simpl length.
      replace (S (length d) - k)%nat with 0%nat by lia. reflexivity.
Qed.

Lemma od_contains_elem_of d key :
  od_contains d key = true <-> key ∈ d.*1.
Proof.
  induction d as [|[k v] d IH]; simpl.
  - split; [discriminate | intros H0; inversion H0].
  - destruct (decide (k = key)) as [->|Hne].
    + split; [intros _; left | reflexivity].
    + rewrite IH. split; [intros H0; by right |].
      intros H0. inversion H0; subst; [congruence | assumption].
Qed.

Lemma od_setitem_fresh d key value :
  key ∉ d.*1 -> od_setitem d key value = d ++ [(key, value)].
Proof.
  induction d as [|[k v] d IH]; simpl; intros Hnotin; [reflexivity |].
  destruct (decide (k = key)) as [->|Hne].
  - exfalso. apply Hnotin. left.
  - rewrite IH; [reflexivity |]. intros Hin. apply Hnotin. by right.
Qed.

Lemma od_setitem_present d key value :
  key ∈ d.*1 ->
  (od_setitem d key value).*1 = d.*1 /\
  length (od_setitem d key value) = length d.
Proof.
  induction d as [|[k v] d IH]; intros Hin; [inversion Hin |].
  cbn [od_setitem]. destruct (decide (k = key)) as [->|Hne]; [done |].
  destruct IH as [IH1 IH2].
  - rewrite fmap_cons in Hin. inversion Hin; subst; [done | assumption].
  - rewrite !fmap_cons, IH1. cbn [length]. rewrite IH2. done.
Qed.

Lemma with_cached_same c : with_cached c (_cached c) = c.
Proof. destruct c; reflexivity. Qed.

Lemma insert_bounded (k : nat) c key value :
  _max_size c = Some (Z.of_nat k) ->
  let d := od_setitem (_cached c) key value in
  insert key value c = (Ok tt, with_cached c (drop (length d - k) d)).
Proof.
  intros Hmax d. unfold insert, bind, modify, _check_size. simpl.
  rewrite Hmax, popitem_loop_bounded. reflexivity.
Qed.

Lemma insert_all_app (items1 items2 : list (K * V)) c :
  insert_all (items1 ++ items2) c =
  (insert_all items1 ;;; insert_all items2) c.
Proof.
  revert c. induction items1 as [|[k v] items1 IH]; intros c; simpl.
  - reflexivity.
  - unfold bind in *. destruct (insert k v c) as [[[]|e] c']; [|reflexivity].
    rewrite IH. reflexivity.
Qed.

(** Below the bound, distinct fresh keys are appended in order. *)
Lemma insert_all_no_pressure (k : nat) (items : list (K * V)) c :
  _max_size c = Some (Z.of_nat k) ->
  NoDup (_cached c ++ items).*1 ->
  (length (_cached c ++ items) <= k)%nat ->
  insert_all items c = (Ok tt, with_cached c (_cached c ++ items)).
Proof.
  revert c. induction items as [|[key value] items IH]; intros c Hmax Hnd Hlen.
  - simpl. rewrite app_nil_r, with_cached_same. reflexivity.
  - simpl. unfold bind. rewrite (insert_bounded k) by assumption. simpl.
    assert (Hfresh : key ∉ (_cached c).*1).
    { rewrite fmap_app in Hnd. apply NoDup_app in Hnd as (_ & Hdisj & _).
      intros Hin. apply (Hdisj key Hin). simpl. left. }
    rewrite od_setitem_fresh by assumption.
    rewrite length_app in Hlen |- *. simpl in Hlen |- *.
    replace (length (_cached c) + 1 - k)%nat with 0%nat by lia.
    rewrite drop_0, IH; simpl.
    + unfold with_cached. simpl. rewrite <- app_assoc. reflexivity.
    + assumption.
    + rewrite <- app_assoc. assumption.
    + rewrite <- app_assoc, length_app. simpl. lia.
Qed.

Lemma drop_1_tail {A} (l : list A) : drop 1 l = tail l.
Proof. destruct l; [reflexivity | apply drop_0]. Qed.

Lemma od_getitem_setitem d key value :
  od_getitem (od_setitem d key value) key = Ok value.
Proof.
  induction d as [|[k v] d IH]; simpl.
  - rewrite decide_True by reflexivity. reflexivity.
  - destruct (decide (k = key)) as [->|Hne]; simpl.
    + rewrite decide_True by reflexivity. reflexivity.
    + rewrite decide_False by assumption. exact IH.
Qed.

Lemma od_getitem_setitem_ne d key key' value :
  key' <> key ->
  od_getitem (od_setitem d key value) key' = od_getitem d key'.
Proof.
  intros Hne. induction d as [|[k v] d IH]; simpl.
  - rewrite decide_False by congruence. reflexivity.
  - destruct (decide (k = key)) as [->|Hk]; simpl.
    + rewrite !decide_False by congruence. reflexivity.
    + destruct (decide (k = key')); [reflexivity | exact IH].
Qed.

(** Re-inserting a present key evicts nothing. *)
Lemma insert_present (k : nat) c key value :
  _max_size c = Some (Z.of_nat k) -> (length (_cached c) <= k)%nat ->
  key ∈ (_cached c).*1 ->
  insert key value c
  = (Ok tt, with_cached c (od_setitem (_cached c) key value)).
Proof.
  intros Hmax Hlen Hin. rewrite (insert_bounded k) by assumption.
  cbv zeta. destruct (od_setitem_present (_cached c) key value Hin) as [_ ->].
  replace (length (_cached c) - k)%nat with 0%nat by lia.
  rewrite drop_0. reflexivity.
Qed.

(** Any number of re-insertions of present keys keeps the keys and their
    order. *)
Lemma insert_all_present (k : nat) (touches : list (K * V)) c :
  _max_size c = Some (Z.of_nat k) -> (length (_cached c) <= k)%nat ->
  (forall kv, kv ∈ touches -> kv.1 ∈ (_cached c).*1) ->
  exists d', insert_all touches c = (Ok tt, with_cached c d') /\
             d'.*1 = (_cached c).*1.
Proof.
  revert c. induction touches as [|[key value] touches IH];
    intros c Hmax Hlen Hin.
  - exists (_cached c). simpl. rewrite with_cached_same. done.
  - assert (Hkey : key ∈ (_cached c).*1).
    { apply (Hin (key, value)). left. }
    destruct (od_setitem_present (_cached c) key value Hkey) as [Hkeys Hl].
    destruct (IH (with_cached c (od_setitem (_cached c) key value)))
      as (d' & Hrun & Hd'); simpl.
    + exact Hmax.
    + lia.
    + intros kv Hkv. rewrite Hkeys. apply Hin. by right.
    + exists d'. simpl. unfold bind.
      rewrite (insert_present k) by assumption. simpl in Hrun |- *.
      rewrite Hrun. split; [reflexivity |]. rewrite Hd'. exact Hkeys.
Qed.

(** Fresh distinct keys are appended in order, and what exceeds the bound is
    dropped from the front. *)
Lemma insert_all_fresh (k : nat) (items : list (K * V)) c :
  _max_size c = Some (Z.of_nat k) ->
  NoDup (_cached c ++ items).*1 ->
  (length (_cached c) <= k)%nat ->
  insert_all items c
  = (Ok tt,
     with_cached c
       (drop (length (_cached c ++ items) - k) (_cached c ++ items))).
Proof.
  revert c. induction items as [|[key value] items IH]; intros c Hmax Hnd Hlen.
  - simpl. rewrite app_nil_r.
    replace (length (_cached c) - k)%nat with 0%nat by lia.
    rewrite drop_0, with_cached_same. reflexivity.
  - simpl. unfold bind. rewrite (insert_bounded k) by assumption. cbv zeta.
    assert (Hfresh : key ∉ (_cached c).*1).
    { rewrite fmap_app in Hnd. apply NoDup_app in Hnd as (_ & Hdisj & _).
      intros Hin. apply (Hdisj key Hin). simpl. left. }
    rewrite od_setitem_fresh by assumption.
    set (d1 := _cached c ++ [(key, value)]).
    set (m := (length d1 - k)%nat).
    assert (Hd1 : length d1 = S (length (_cached c))).
    { unfold d1. rewrite length_app. simpl. lia. }
    assert (Hm : (m <= length d1)%nat) by (unfold m; lia).
    assert (Heq : drop m d1 ++ items
                  = drop m (_cached c ++ (key, value) :: items)).
    { rewrite (cons_middle (key, value)), app_assoc. fold d1.
      rewrite drop_app_le by exact Hm. reflexivity. }
    rewrite IH; cbn [with_cached _cached _max_size].
    + rewrite Heq, drop_drop, length_drop. f_equal. f_equal. f_equal.
      rewrite length_app in *. simpl in *. unfold m. lia.
    + exact Hmax.
    + rewrite Heq, fmap_drop.
      eapply sublist_NoDup; [exact Hnd | apply sublist_drop].
    + rewrite length_drop. unfold m. lia.
Qed.

(** C4. A cache with [max_size = k], fed [k + 1] distinct keys from empty,
    ends with exactly [k] entries: all but the first inserted one, in
    insertion order (FIFO).  Re-inserting the oldest key before the bound is
    reached does not save it from being evicted first.  After every insert,
    [len(cache) <= max_size].  In any cache within its bound, re-inserting
    a present key evicts nothing and keeps every key at its position; only
    the value of that key changes.  Hence, after any re-insertions of
    present keys, fresh keys evict in the order the keys had before: the
    keys left are the old keys followed by the fresh ones, without as many
    of the first as exceed the bound. *)
Theorem Cache_insert_fifo (k : nat) (items : list (K * V)) :
  NoDup items.*1 ->
  length items = S k ->
  (exists c',
      insert_all items (Cache_init (Some (Z.of_nat k))) = (Ok tt, c') /\
      cached c' = tail items /\
      len c' = Z.of_nat k /\
      (forall key0, head items.*1 = Some key0 ->
                    od_contains (cached c') key0 = false)) /\
  (forall key0 value0 value0' rest last,
      items = (key0, value0) :: rest ++ [last] ->
      exists c',
        insert_all (((key0, value0) :: rest) ++ [(key0, value0'); last])
          (Cache_init (Some (Z.of_nat k))) = (Ok tt, c') /\
        cached c' = rest ++ [last]) /\
  (forall c key value,
      _max_size c = Some (Z.of_nat k) ->
      exists c', insert key value c = (Ok tt, c') /\ len c' <= Z.of_nat k) /\
  (forall c key value,
      _max_size c = Some (Z.of_nat k) -> len c <= Z.of_nat k ->
      key ∈ (cached c).*1 ->
      exists c',
        insert key value c = (Ok tt, c') /\
        (cached c').*1 = (cached c).*1 /\
        od_getitem (cached c') key = Ok value /\
        forall key', key' <> key ->
                     od_getitem (cached c') key' = od_getitem (cached c) key') /\
  (forall c (touches news : list (K * V)),
      _max_size c = Some (Z.of_nat k) -> len c <= Z.of_nat k ->
      NoDup ((cached c).*1 ++ news.*1) ->
      (forall kv, kv ∈ touches -> kv.1 ∈ (cached c).*1) ->
      exists c',
        insert_all (touches ++ news) c = (Ok tt, c') /\
        (cached c').*1
        = drop (length (cached c) + length news - k)
            ((cached c).*1 ++ news.*1)).
Proof.
  intros Hnd Hlen.
  assert (Hsplit : exists init last, items = init ++ [last]).
  { destruct items as [|kv items] using rev_ind; [discriminate | eauto]. }
  destruct Hsplit as (init & [klast vlast] & ->).
  rewrite length_app in Hlen. simpl in Hlen.
  assert (Hk : length init = k) by lia.
  pose proof Hnd as Hnd'. rewrite fmap_app in Hnd'.
  apply NoDup_app in Hnd' as (Hnd_init & Hdisj & _).
  assert (Hfresh : klast ∉ init.*1).
  { intros Hin. apply (Hdisj klast Hin). left. }
  assert (Hinit : insert_all init (Cache_init (Some (Z.of_nat k)))
                  = (Ok tt, with_cached (Cache_init (Some (Z.of_nat k))) init)).
  { rewrite (insert_all_no_pressure k); simpl; try done. lia. }
  split; [| split; [| split; [| split]]].
  - eexists. rewrite insert_all_app. unfold bind at 1. rewrite Hinit.
    simpl. unfold bind. rewrite (insert_bounded k) by reflexivity. simpl.
    rewrite od_setitem_fresh by assumption.
    rewrite length_app. simpl.
    replace (length init + 1 - k)%nat with 1%nat by lia.
    rewrite drop_1_tail. unfold ret, len, cached. simpl.
    repeat split.
    + assert (Hl : length (init ++ [(klast, vlast)]) = S k)
        by (rewrite length_app; simpl; lia).
      destruct (init ++ [(klast, vlast)]); simpl in *; lia.
    + intros key0 Hhead.
      destruct (od_contains _ key0) eqn:E; [| reflexivity].
      apply od_contains_elem_of in E. exfalso.
      destruct (init ++ [(klast, vlast)]) as [|[k0 v0] l]; [inversion E |].
      simpl in Hhead, E. injection Hhead as ->.
      rewrite fmap_cons in Hnd. apply NoDup_cons in Hnd as [Hnotin _].
      contradiction.
  - intros key0 value0 value0' rest last Heq.
    destruct init as [|[k0 v0] init'].
    { simpl in Heq. injection Heq as _ Heq. destruct rest; discriminate. }
    simpl in Heq. injection Heq as -> -> Heq.
    apply app_inj_tail in Heq as [-> <-].
    eexists.
    rewrite insert_all_app. unfold bind at 1. rewrite Hinit.
    cbn [insert_all]. unfold bind.
    rewrite (insert_bounded k) by reflexivity.
    cbn [with_cached _cached _max_size Cache_init od_setitem].
    rewrite decide_True by reflexivity.
    replace (length ((key0, value0') :: rest) - k)%nat with 0%nat
      by (simpl in *; lia).
    rewrite drop_0.
    rewrite (insert_bounded k) by reflexivity.
    cbn [with_cached _cached _max_size Cache_init].
    rewrite (od_setitem_fresh ((key0, value0') :: rest)) by exact Hfresh.
    replace (length (((key0, value0') :: rest) ++ [(klast, vlast)]) - k)%nat
      with 1%nat by (rewrite length_app; simpl in *; lia).
    unfold ret, cached. simpl. split; reflexivity.
  - intros c key value Hmax. eexists. split.
    + apply (insert_bounded k). assumption.
    + unfold len, with_cached. simpl. rewrite length_drop. lia.
  - intros c key value Hmax Hbound Hin. unfold len, cached in *.
    eexists.
    split; [apply (insert_present k); [assumption | lia | assumption] |].
    cbn [with_cached _cached].
    split; [exact (proj1 (od_setitem_present _ _ value Hin)) |].
    split; [apply od_getitem_setitem |].
    intros key' Hne. by apply od_getitem_setitem_ne.
  - intros c touches news Hmax Hbound Hnd_all Htouch. unfold len, cached in *.
    destruct (insert_all_present k touches c Hmax ltac:(lia) Htouch)
      as (d' & Hrun & Hkeys).
    assert (Hlen' : length d' = length (_cached c)).
    { rewrite <- (length_fmap fst d'), Hkeys, length_fmap. reflexivity. }
    eexists. rewrite insert_all_app. unfold bind at 1. rewrite Hrun.
    split.
    + apply (insert_all_fresh k); cbn [with_cached _cached _max_size].
      * exact Hmax.
      * rewrite fmap_app, Hkeys. exact Hnd_all.
      * lia.
    + cbn [with_cached _cached].
      rewrite fmap_drop, fmap_app, Hkeys, length_app, Hlen'. reflexivity.
Qed.

End cache_facts.

(** ** Events and the cache-clearing callback *)

Section event_facts.
Context {K V : Type}.
Implicit Types (st : Store K V) (c : Cache K V) (cbs : list callback).

Lemma run_callbacks_no_change cbs property_name st :
  fold_left (fun s cb => call cb property_name false s) cbs st = st.
Proof.
  revert st. induction cbs as [|[t] cbs IH]; intros st; simpl; [reflexivity |].
  apply IH.
Qed.

Lemma run_callbacks_cleared cbs property_name st (a : nat) c :
  st !! a = Some (clear c) ->
  fold_left (fun s cb => call cb property_name true s) cbs st !! a
  = Some (clear c).
Proof.
  revert st. induction cbs as [|[t] cbs IH]; intros st Hst; simpl; [assumption |].
  apply IH. rewrite lookup_alter. case_decide; subst.
  - rewrite Hst. reflexivity.
  - assumption.
Qed.

Lemma run_callbacks_clears cbs property_name st (a : nat) c :
  st !! a = Some c ->
  cache_clear_callback a ∈ cbs ->
  fold_left (fun s cb => call cb property_name true s) cbs st !! a
  = Some (clear c).
Proof.
  revert st. induction cbs as [|[t] cbs IH]; intros st Hst Hin; simpl.
  - inversion Hin.
  - destruct (decide (t = a)) as [->|Hne].
    + apply run_callbacks_cleared. rewrite lookup_alter, decide_True by done.
      rewrite Hst. reflexivity.
    + apply IH.
      * rewrite lookup_alter, decide_False by done. assumption.
      * inversion Hin; subst; [congruence | assumption].
Qed.

(** C7. The callback made by [cache_clear_callback(target_cache)], called
    directly or through [Event.notify], leaves the target cache cleared
    when [change] is true and leaves every cache as it was when [change] is
    false; a non-empty target is therefore emptied if and only if [change]
    is true. *)
Theorem cache_clear_callback_iff_change
  (target_cache : nat) (ev : Event) (property_name : string) (change : bool)
  st c :
  st !! target_cache = Some c ->
  cache_clear_callback target_cache ∈ callbacks ev ->
  call (cache_clear_callback target_cache) property_name change st !! target_cache
  = Some (if change then clear c else c) /\
  (notify ev property_name change st).2 !! target_cache
  = Some (if change then clear c else c) /\
  cached (clear c) = [] /\
  (change = false ->
   call (cache_clear_callback target_cache) property_name change st = st /\
   (notify ev property_name change st).2 = st) /\
  (cached c <> [] ->
   (exists c', (notify ev property_name change st).2 !! target_cache = Some c' /\
               cached c' = []) <-> change = true).
Proof.
  intros Hst Hin.
  assert (Hnotify : (notify ev property_name change st).2 !! target_cache
                    = Some (if change then clear c else c)).
  { unfold notify. simpl. destruct change.
    - by apply run_callbacks_clears.
    - rewrite run_callbacks_no_change. assumption. }
  split; [| split; [exact Hnotify | split; [reflexivity | split]]].
  - simpl. destruct change; [| assumption].
    rewrite lookup_alter, decide_True by done. rewrite Hst. reflexivity.
  - intros ->. split; [reflexivity |].
    unfold notify. simpl. apply run_callbacks_no_change.
  - intros Hnonempty. split.
    + intros (c' & Hc' & Hempty). rewrite Hnotify in Hc'.
      destruct change; [reflexivity |]. injection Hc' as <-. contradiction.
    + intros ->. exists (clear c). split; [assumption | reflexivity].
Qed.

End event_facts.

(** ** Arithmetic raises arithmetic exceptions only *)

Lemma float_of_int_raise n e : float_of_int n = Raise e -> arith_error e.
Proof. unfold float_of_int. case (_ <? _); intros [=]; subst; exact I. Qed.

Lemma to_float_raise x e : to_float x = Raise e -> arith_error e.
Proof. destruct x; simpl; [apply float_of_int_raise | discriminate]. Qed.

Lemma int_of_float_raise x e : int_of_float x = Raise e -> arith_error e.
Proof. unfold int_of_float. case (Prim2SF x); intros; simplify_eq; exact I. Qed.

Lemma to_int_raise x e : to_int x = Raise e -> arith_error e.
Proof. destruct x; simpl; [discriminate | apply int_of_float_raise]. Qed.

Lemma int_ceil_raise x e : int_ceil x = Raise e -> arith_error e.
Proof. unfold int_ceil. case (Prim2SF x); intros; simplify_eq; exact I. Qed.

Lemma int_mul_float_raise n d e : int_mul_float n d = Raise e -> arith_error e.
Proof.
  unfold int_mul_float. destruct (float_of_int n) eqn:E; [discriminate |].
  intros [= <-]. eapply float_of_int_raise, E.
Qed.

Lemma float_div_raise l d e : float_div l d = Raise e -> arith_error e.
Proof. unfold float_div. case (is_zero d); intros [=]; subst; exact I. Qed.

Lemma float_div_int_raise l n e : float_div_int l n = Raise e -> arith_error e.
Proof.
  unfold float_div_int. destruct (float_of_int n) eqn:E.
  - case (n =? 0); intros [=]; subst; exact I.
  - intros [= <-]. eapply float_of_int_raise, E.
Qed.

Lemma mapM_raise {A B} (E : exn -> Prop) (f : A -> result B) xs e :
  (forall x e, f x = Raise e -> E e) -> mapM f xs = Raise e -> E e.
Proof.
  intros Hf. induction xs as [|x xs IH]; simpl; [discriminate |].
  destruct (f x) eqn:Ex; [| intros [= <-]; eauto].
  destruct (mapM f xs); [discriminate | intros [= <-]; auto].
Qed.

Lemma zipM_raise {A B C} (E : exn -> Prop) (f : A -> B -> result C) xs ys e :
  (forall x y e, f x y = Raise e -> E e) -> zipM f xs ys = Raise e -> E e.
Proof.
  intros Hf. revert ys. induction xs as [|x xs IH]; intros [|y ys]; simpl;
    try discriminate.
  destruct (f x y) eqn:Ex; [| intros [= <-]; eauto].
  destruct (zipM f xs ys) eqn:Ez; [discriminate | intros [= <-]; eauto].
Qed.

Lemma mapM_to_float_floats (ls : list float) :
  mapM to_float (map PyFloat ls) = Ok ls.
Proof. induction ls as [|l ls IH]; simpl; [| rewrite IH]; reflexivity. Qed.

Lemma mapM_to_int_ints (ns : list Z) :
  mapM to_int (map PyInt ns) = Ok ns.
Proof. induction ns as [|n ns IH]; simpl; [| rewrite IH]; reflexivity. Qed.

(** ** Computations that keep a relation on the state *)

Section keeps.
Context {S : Type} (R : S -> S -> Prop).
Local Abbreviation keeps := (keeps R).
Hypothesis R_refl : forall s, R s s.
Hypothesis R_trans : forall s1 s2 s3, R s1 s2 -> R s2 s3 -> R s1 s3.

Lemma keeps_ret {A} E (a : A) : keeps E (ret a).
Proof using R_refl. intros s. split; [apply R_refl | discriminate]. Qed.

Lemma keeps_raise {A} (E : exn -> Prop) e : E e -> keeps E (raise e : M S A).
Proof using R_refl.
  intros He s. split; [apply R_refl | intros e' [= <-]; exact He].
Qed.

Lemma keeps_gets {A} E (f : S -> A) : keeps E (gets f).
Proof using R_refl. intros s. split; [apply R_refl | discriminate]. Qed.

Lemma keeps_lift {A} (E : exn -> Prop) (r : result A) :
  (forall e, r = Raise e -> E e) -> keeps E (lift r).
Proof using R_refl. intros Hr s. split; [apply R_refl | exact Hr]. Qed.

Lemma keeps_modify E (f : S -> S) : (forall s, R s (f s)) -> keeps E (modify f).
Proof. intros Hf s. split; [apply Hf | discriminate]. Qed.

Lemma keeps_bind {A B} E (m : M S A) (k : A -> M S B) :
  keeps E m -> (forall a, keeps E (k a)) -> keeps E (bind m k).
Proof using R_trans.
  intros Hm Hk s. unfold bind. destruct (Hm s) as [HR HE].
  destruct (m s) as [[a|e] s1]; simpl in *.
  - destruct (Hk a s1) as [HR' HE']. split; [eauto | exact HE'].
  - split; [exact HR |]. intros e' [= <-]. apply HE. reflexivity.
Qed.

Lemma keeps_weaken {A} (E E' : exn -> Prop) (m : M S A) :
  (forall e, E e -> E' e) -> keeps E m -> keeps E' m.
Proof. intros HE Hm s. destruct (Hm s) as [HR He]. split; eauto. Qed.

End keeps.

(** ** Grid: what the setters keep and what they can raise *)

Lemma grid_frame_refl g : grid_frame g g.
Proof. repeat split. Qed.

Lemma grid_frame_trans g1 g2 g3 :
  grid_frame g1 g2 -> grid_frame g2 g3 -> grid_frame g1 g3.
Proof.
  unfold grid_frame. intros (?&?&?&?&?&?) (?&?&?&?&?&?).
  repeat split; congruence.
Qed.

Lemma arith_setter_error e : arith_error e -> setter_error e.
Proof. destruct e; simpl; tauto. Qed.

Ltac case_if :=
  match goal with
  | |- context [if ?b then _ else _] => destruct b
  end.

Ltac grid_keeps :=
  repeat first
    [ apply (keeps_bind grid_frame grid_frame_trans); [| intros ?]
    | apply (keeps_ret grid_frame grid_frame_refl)
    | apply (keeps_gets grid_frame grid_frame_refl)
    | apply (keeps_raise grid_frame grid_frame_refl)
    | apply (keeps_modify grid_frame); intros ?; repeat split
    | apply (keeps_lift grid_frame grid_frame_refl)
    | match goal with
      | |- keeps _ _ (if ?b then _ else _) => destruct b
      | |- keeps _ _ (match ?x with _ => _ end) => destruct x
      end ].

Lemma adjust_extent_keeps n s :
  keeps grid_frame arith_error (Grid._adjust_extent n s).
Proof.
  unfold Grid._adjust_extent. grid_keeps.
  intros e; case_if; apply zipM_raise; intros ? ? ?; apply int_mul_float_raise.
Qed.

Lemma adjust_gpts_keeps e s :
  keeps grid_frame arith_error (Grid._adjust_gpts e s).
Proof.
  unfold Grid._adjust_gpts. grid_keeps.
  intros e'; case_if; apply zipM_raise; intros x y e0;
    destruct (float_div x y) as [q|] eqn:Eq.
  - destruct (int_ceil q) eqn:Ec; [discriminate |].
    intros [= <-]. eapply int_ceil_raise, Ec.
  - intros [= <-]. eapply float_div_raise, Eq.
  - apply int_ceil_raise.
  - intros [= <-]. eapply float_div_raise, Eq.
Qed.

Lemma adjust_sampling_keeps e n :
  keeps grid_frame arith_error (Grid._adjust_sampling e n).
Proof.
  unfold Grid._adjust_sampling. grid_keeps.
  intros e'; case_if; apply zipM_raise; intros ? ? ?; apply float_div_int_raise.
Qed.

Lemma validate_raise {A} dims value (dtype : num -> result A) e :
  (forall x e, dtype x = Raise e -> arith_error e) ->
  Grid._validate dims value dtype = Raise e -> setter_error e.
Proof.
  intros Hd. destruct value as [|x|xs|r]; simpl.
  - discriminate.
  - destruct (dtype x) eqn:Ex; [discriminate |].
    intros [= <-]. eapply arith_setter_error, Hd, Ex.
  - destruct (negb _).
    + intros [= <-]. simpl. tauto.
    + destruct (mapM dtype xs) eqn:Em; [discriminate |].
      intros [= <-]. apply arith_setter_error.
      eapply mapM_raise; [exact Hd | exact Em].
  - intros [= <-]. simpl. tauto.
Qed.

Ltac setter_keeps :=
  grid_keeps;
  try (eapply keeps_weaken; [exact arith_setter_error |];
       first [ apply adjust_extent_keeps | apply adjust_gpts_keeps
             | apply adjust_sampling_keeps ]);
  try (simpl; tauto).

Lemma extent_fset_keeps value :
  keeps grid_frame setter_error (Grid.extent_fset value).
Proof.
  unfold Grid.extent_fset. setter_keeps.
  intros e. apply validate_raise, to_float_raise.
Qed.

Lemma gpts_fset_keeps value :
  keeps grid_frame setter_error (Grid.gpts_fset value).
Proof.
  unfold Grid.gpts_fset. setter_keeps.
  intros e. apply validate_raise, to_int_raise.
Qed.

Lemma sampling_fset_keeps value :
  keeps grid_frame setter_error (Grid.sampling_fset value).
Proof.
  unfold Grid.sampling_fset. setter_keeps.
  intros e. apply validate_raise, to_float_raise.
Qed.

Section grid_setters.
Context {K V : Type}.
Implicit Types (g : Grid.t) (st : Store K V).

Lemma fset_keeps name value : keeps grid_frame setter_error (fset name value).
Proof.
  destruct name; [apply extent_fset_keeps | apply gpts_fset_keeps
                 | apply sampling_fset_keeps].
Qed.

Lemma setattr_unfold name value g st :
  Grid.setattr name value (g, st) =
  watched_method Grid.changed Grid.with_changed (property_name name)
    (fset name value) (g, st).
Proof. destruct name; reflexivity. Qed.

(** A setter either raises, leaving the event and the caches alone, or
    completes and notifies once. *)
Lemma setattr_outcome name value g st r g' st' :
  Grid.setattr name value (g, st) = (r, (g', st')) ->
  match r with
  | Ok _ =>
      exists g1,
        fset name value g = (Ok tt, g1) /\ grid_frame g g1 /\
        g' = Grid.with_changed g1
               (notify (Grid.changed g) (property_name name) true st).1 /\
        st' = (notify (Grid.changed g) (property_name name) true st).2
  | Raise e =>
      fset name value g = (Raise e, g') /\ st' = st /\
      setter_error e /\ grid_frame g g'
  end.
Proof.
  rewrite setattr_unfold. unfold watched_method.
  destruct (fset_keeps name value g) as [Hframe Herr].
  destruct (fset name value g) as [[[]|e] g1] eqn:Ef; simpl in *.
  - intros [= <- <- <-]. exists g1.
    pose proof Hframe as (Hchanged & _). rewrite Hchanged.
    split; [reflexivity |]. split; [exact Hframe |]. split; reflexivity.
  - intros [= <- <- <-]. split; [reflexivity |]. split; [reflexivity |].
    split; [apply Herr; reflexivity | exact Hframe].
Qed.

(** C6. Writing to a locked axis descriptor raises the [RuntimeError] of its
    lock check; the grid (its extent, gpts and sampling, and the counter of
    its event) and the caches are exactly as before. *)
Theorem Grid_locked_write_fails name value g st :
  Grid.locked name g = true ->
  Grid.setattr name value (g, st)
  = (Raise (RuntimeError (locked_message name) []), (g, st)) /\
  is_state_error (Grid.setattr name value (g, st)).1 /\
  Grid.extent (Grid.setattr name value (g, st)).2.1 = Grid.extent g /\
  Grid.gpts (Grid.setattr name value (g, st)).2.1 = Grid.gpts g /\
  Grid.sampling (Grid.setattr name value (g, st)).2.1 = Grid.sampling g /\
  notify_count (Grid.changed (Grid.setattr name value (g, st)).2.1)
  = notify_count (Grid.changed g).
Proof.
  intros Hlock.
  assert (Heq : Grid.setattr name value (g, st)
                = (Raise (RuntimeError (locked_message name) []), (g, st))).
  { destruct name; simpl in *;
      unfold Grid.set_extent, Grid.set_gpts, Grid.set_sampling, watched_method,
        Grid.extent_fset, Grid.gpts_fset, Grid.sampling_fset, bind, gets, raise;
      simpl; rewrite Hlock; reflexivity. }
  rewrite Heq. simpl. repeat split.
Qed.

(** C1 (as the code has it). Every assignment to an axis descriptor that
    completes, whether the value is the current one or a different one,
    increments the notification counter of the grid's event exactly once;
    an assignment that raises leaves the counter as it was. *)
Theorem Grid_setattr_notify_count name value g st r g' st' :
  Grid.setattr name value (g, st) = (r, (g', st')) ->
  notify_count (Grid.changed g')
  = notify_count (Grid.changed g) + (if is_ok r then 1 else 0).
Proof.
  intros Hset. apply setattr_outcome in Hset. destruct r as [[]|e]; simpl.
  - destruct Hset as (g1 & _ & _ & -> & _). reflexivity.
  - destruct Hset as (_ & _ & _ & (-> & _)). unfold notify_count. lia.
Qed.

End grid_setters.

(** ** Grid: a locked sampling and a new extent *)

Section grid_lock_sampling.
Context {K V : Type}.
Implicit Types (g : Grid.t) (st : Store K V).

(** C2 (as the code has it). On a grid whose sampling is locked and
    defined, assigning an extent recomputes gpts from the new extent and the
    locked sampling, and then recomputes the sampling from the new extent and
    the new gpts; the assignment stores the new extent and notifies once.  An
    arithmetic exception in the first step leaves the grid untouched, one in
    the second step leaves it with the new gpts only. *)
Theorem Grid_lock_sampling_set_extent value g st ls ds :
  Grid._lock_sampling g = true ->
  Grid._lock_extent g = false ->
  Grid.sampling g = Some ds ->
  Grid._validate (Grid.dimensions g) value to_float = Ok (Some ls) ->
  Grid.set_extent value (g, st) =
  match gpts_of (Grid.endpoint g) ls ds with
  | Raise e => (Raise e, (g, st))
  | Ok ns =>
      match sampling_of (Grid.endpoint g) ls ns with
      | Raise e => (Raise e, (Grid.with_gpts (Some ns) g, st))
      | Ok ss =>
          (Ok tt,
           (Grid.with_changed
              (Grid.with_extent (Some ls)
                 (Grid.with_sampling (Some ss) (Grid.with_gpts (Some ns) g)))
              (notify (Grid.changed g) "extent" true st).1,
            (notify (Grid.changed g) "extent" true st).2))
      end
  end.
Proof.
  destruct g as [ev dims endpoint le lg lsm e n s]. simpl.
  intros -> -> -> Hval.
  unfold Grid.set_extent, watched_method, Grid.extent_fset, bind, gets, lift,
    raise, Grid.dimensions. simpl. rewrite Hval. simpl.
  unfold Grid._adjust_gpts, gpts_of, bind, gets, lift, modify. simpl.
  destruct endpoint; simpl.
  - destruct (zipM _ ls ds) as [ns|e0]; [| reflexivity]. simpl.
    unfold Grid._adjust_sampling, sampling_of, bind, gets, lift, modify. simpl.
    destruct (zipM _ ls ns) as [ss|e0]; reflexivity.
  - destruct (zipM _ ls ds) as [ns|e0]; [| reflexivity]. simpl.
    unfold Grid._adjust_sampling, sampling_of, bind, gets, lift, modify. simpl.
    destruct (zipM _ ls ns) as [ss|e0]; reflexivity.
Qed.

End grid_lock_sampling.

(** ** Grid: when the derivations succeed *)

Lemma float_of_int_ok n :
  Z.abs n < 2 ^ 1024 - 2 ^ 970 -> exists x, float_of_int n = Ok x.
Proof.
  intros Hn. unfold float_of_int. apply Z.ltb_lt in Hn. rewrite Hn. eauto.
Qed.

Lemma float_div_int_ok (endpoint : bool) l n :
  divisor_ok endpoint n ->
  exists q, float_div_int l (if endpoint then n - 1 else n) = Ok q.
Proof.
  intros [Hnz Hbound]. unfold float_div_int.
  destruct (float_of_int_ok _ Hbound) as [x ->].
  apply Z.eqb_neq in Hnz. rewrite Hnz. eauto.
Qed.

Lemma sampling_of_ok endpoint ls ns :
  Forall (divisor_ok endpoint) ns -> exists ss, sampling_of endpoint ls ns = Ok ss.
Proof.
  intros Hns. revert ls.
  induction Hns as [|n ns Hn _ IH]; intros [|l ls];
    try (destruct endpoint; simpl; eauto; fail).
  destruct (IH ls) as [ss Hss].
  destruct (float_div_int_ok endpoint l n Hn) as [q Hq].
  unfold sampling_of in *. destruct endpoint; simpl; rewrite Hq, Hss; eauto.
Qed.

Lemma validate_floats dims ls :
  Z.of_nat (length ls) = dims ->
  Grid._validate dims (Grid.py_of_floats (Some ls)) to_float = Ok (Some ls).
Proof.
  intros <-. simpl. rewrite length_map, Z.eqb_refl. simpl.
  rewrite mapM_to_float_floats. reflexivity.
Qed.

Lemma validate_ints dims ns :
  Z.of_nat (length ns) = dims ->
  Grid._validate dims (Grid.py_of_ints (Some ns)) to_int = Ok (Some ns).
Proof.
  intros <-. simpl. rewrite length_map, Z.eqb_refl. simpl.
  rewrite mapM_to_int_ints. reflexivity.
Qed.

Lemma validate_floats_inv dims ls v :
  Grid._validate dims (Grid.py_of_floats (Some ls)) to_float = Ok v ->
  v = Some ls.
Proof.
  simpl. destruct (negb _); [discriminate |].
  rewrite mapM_to_float_floats. congruence.
Qed.

(** A completed [extent] assignment has stored the validated value. *)
Lemma extent_fset_ok value g g1 :
  Grid.extent_fset value g = (Ok tt, g1) ->
  exists v, Grid._validate (Grid.dimensions g) value to_float = Ok v /\
            Grid.extent g1 = v.
Proof.
  unfold Grid.extent_fset, bind, gets, lift, raise, modify.
  destruct (Grid._lock_extent g); [discriminate |].
  destruct (Grid._validate _ value to_float) as [v|]; [| discriminate].
  match goal with
  | |- context [match ?m g with _ => _ end] => destruct (m g) as [[[]|] g2]
  end; [| discriminate].
  intros [= <-]. exists v. split; reflexivity.
Qed.

Lemma int_mul_float_ok (endpoint : bool) n d :
  divisor_ok endpoint n ->
  exists x, int_mul_float (if endpoint then n - 1 else n) d = Ok x.
Proof.
  intros [_ Hbound]. unfold int_mul_float.
  destruct (float_of_int_ok _ Hbound) as [x ->]. eauto.
Qed.

Lemma extent_of_ok endpoint ns ds :
  Forall (divisor_ok endpoint) ns -> exists es, extent_of endpoint ns ds = Ok es.
Proof.
  intros Hns. revert ds.
  induction Hns as [|n ns Hn _ IH]; intros [|d ds];
    try (destruct endpoint; simpl; eauto; fail).
  destruct (IH ds) as [es Hes].
  destruct (int_mul_float_ok endpoint n d Hn) as [x Hx].
  unfold extent_of in *. destruct endpoint; simpl; rewrite Hx, Hes; eauto.
Qed.

(** Where C9 holds: a grid built from gpts and sampling alone, every gpts a
    usable divisor (not 1 when the endpoint is included), has the extent
    [gpts * sampling], resp. [(gpts - 1) * sampling], element by element. *)
Lemma Grid_init_extent_of gpts sampling dims endpoint
  (lock_extent lock_gpts lock_sampling : bool) ns ds :
  Z.b2z lock_extent + Z.b2z lock_gpts + Z.b2z lock_sampling <= 1 ->
  Grid._validate dims gpts to_int = Ok (Some ns) ->
  Grid._validate dims sampling to_float = Ok (Some ds) ->
  Forall (divisor_ok endpoint) ns ->
  exists es ss,
    extent_of endpoint ns ds = Ok es /\
    sampling_of endpoint es ns = Ok ss /\
    Grid.__init__ PyNone gpts sampling dims endpoint
      lock_extent lock_gpts lock_sampling
    = Ok (Grid.mk Event_init dims endpoint lock_extent lock_gpts lock_sampling
            (Some es) (Some ns) (Some ss)).
Proof.
  intros Hlocks Hgpts Hsampling Hns.
  destruct (extent_of_ok endpoint ns ds Hns) as [es Hes].
  destruct (sampling_of_ok endpoint es ns Hns) as [ss Hss].
  exists es, ss. split; [exact Hes |]. split; [exact Hss |].
  unfold Grid.__init__. case Z.gtb_spec; [lia | intros _].
  rewrite Hgpts, Hsampling. simpl.
  unfold bind, gets, lift, modify, ret, Grid._adjust_extent, extent_of,
    Grid._adjust_sampling, sampling_of in *. simpl.
  destruct endpoint; simpl; rewrite Hes; simpl; rewrite Hss; reflexivity.
Qed.

(** ** Grid.match *)

Section grid_match.
Context {K V : Type} (same_object : nat -> bool).
Implicit Types (A B : Grid.t) (st : Store K V).

Lemma setter_error_not_inferred e fa :
  setter_error e -> e <> RuntimeError "Grid gpts cannot be inferred" fa.
Proof.
  intros He ->. simpl in He.
  repeat (destruct He as [He|He]; [discriminate He |]). exact He.
Qed.

Lemma check_match_one_sided A B :
  Grid.gpts A = None -> Grid.extent B = None ->
  Grid.check_match same_object A B = Ok tt.
Proof.
  intros HA HB. unfold Grid.check_match. rewrite HA, HB. simpl.
  rewrite !andb_false_r. reflexivity.
Qed.

Lemma gpts_with_changed A ev : Grid.gpts (Grid.with_changed A ev) = Grid.gpts A.
Proof. reflexivity. Qed.

(** When the check passes, [check_match=True] changes nothing. *)
Lemma match_check_passes (check_match : bool) A B st :
  Grid.check_match same_object A B = Ok tt ->
  Grid.match_ same_object check_match (A, B, st)
  = Grid.match_ same_object false (A, B, st).
Proof.
  intros Hcheck. destruct check_match; [| reflexivity].
  unfold Grid.match_, bind, gets, lift, ret, Grid.self_, Grid.other_.
  cbn beta iota. rewrite Hcheck. reflexivity.
Qed.

(** Assigning an extent to a grid with neither gpts nor sampling. *)
Lemma set_extent_bare value B st v :
  Grid._lock_extent B = false ->
  Grid._validate (Grid.dimensions B) value to_float = Ok v ->
  Grid.gpts B = None -> Grid.sampling B = None ->
  Grid.set_extent value (B, st) =
  (Ok tt,
   (Grid.with_changed (Grid.with_extent v B)
      (notify (Grid.changed B) "extent" true st).1,
    (notify (Grid.changed B) "extent" true st).2)).
Proof.
  destruct B as [ev dims endpoint le lg lsm e n s]. simpl.
  intros -> Hval -> ->.
  unfold Grid.set_extent, watched_method, Grid.extent_fset, bind, gets, lift,
    raise, Grid.dimensions. simpl. rewrite Hval. simpl.
  rewrite orb_true_r. destruct v; reflexivity.
Qed.

(** With nothing to derive gpts from, the extent is handed over and the
    match then fails. *)
Lemma match_gpts_not_inferred (check_match : bool) A B st e :
  Grid.extent A = Some e -> Grid.gpts A = None ->
  Grid.extent B = None -> Grid.gpts B = None -> Grid.sampling B = None ->
  Grid._lock_extent B = false ->
  Z.of_nat (length e) = Grid.dimensions B ->
  Grid.match_ same_object check_match (A, B, st) =
  (Raise (RuntimeError "Grid gpts cannot be inferred" []),
   (A,
    Grid.with_changed (Grid.with_extent (Some e) B)
      (notify (Grid.changed B) "extent" true st).1,
    (notify (Grid.changed B) "extent" true st).2)).
Proof.
  intros HAe HAg HBe HBg HBs HBl Hlen.
  unfold Grid.match_, bind, gets, lift, ret, raise, Grid.self_, Grid.other_.
  destruct check_match; cbn beta iota.
  all: try rewrite (check_match_one_sided A B) by assumption.
  all: rewrite HAe, HBe; cbn [is_None andb].
  all: unfold Grid.on_other.
  all: rewrite (set_extent_bare _ B st (Some e)); auto using validate_floats.
  all: cbn beta iota; rewrite HAg.
  all: destruct B; simpl in *; rewrite HBg; reflexivity.
Qed.

(** Whenever the call ends in the error that gpts cannot be inferred, the
    extent phase has run. *)
Lemma match_not_inferred_inv (check_match : bool) A B st e r A' B' st' fa :
  Grid.extent A = Some e -> Grid.gpts A = None ->
  Grid.extent B = None -> Grid.gpts B = None ->
  Grid.match_ same_object check_match (A, B, st) = (r, (A', B', st')) ->
  r = Raise (RuntimeError "Grid gpts cannot be inferred" fa) ->
  Grid.extent B' = Some e /\
  Grid.extent B' <> Grid.extent B /\
  A' = A /\
  notify_count (Grid.changed B') = notify_count (Grid.changed B) + 1.
Proof.
  intros HAe HAg HBe HBg Hmatch ->.
  rewrite match_check_passes in Hmatch
    by (apply check_match_one_sided; assumption).
  unfold Grid.match_, bind, gets, lift, ret, raise, Grid.self_, Grid.other_
    in Hmatch.
  cbn beta iota in Hmatch. rewrite HAe, HBe in Hmatch.
  cbn [is_None andb] in Hmatch. unfold Grid.on_other at 1 in Hmatch.
  rename Hmatch into Hphase.
  destruct (Grid.set_extent _ (B, st)) as [r1 [B1 st1]] eqn:Hset.
  apply (setattr_outcome Grid.Extent) in Hset.
  destruct r1 as [[]|e1].
  - destruct Hset as (g1 & Hf & Hframe & -> & ->).
    apply extent_fset_ok in Hf as (v & Hv & Hg1).
    apply validate_floats_inv in Hv. subst v.
    rewrite !gpts_with_changed, HAg in Hphase.
    destruct (Grid.gpts g1) as [n1|] eqn:Hn1;
      cbn [is_None andb py_ne] in Hphase.
    + exfalso. unfold Grid.on_self in Hphase.
      destruct (Grid.set_gpts _ (A, _)) as [r2 [A2 st2]] eqn:Hset2.
      apply (setattr_outcome Grid.Gpts) in Hset2.
      injection Hphase as -> _ _ _.
      destruct Hset2 as (_ & _ & Herr & _).
      eapply setter_error_not_inferred; [exact Herr | reflexivity].
    + injection Hphase as _ <- <- _.
      unfold Grid.extent in *. simpl. rewrite Hg1, HBe.
      repeat split. discriminate.
  - exfalso. destruct Hset as (_ & _ & Herr & _).
    injection Hphase as -> _ _ _.
    eapply setter_error_not_inferred; [exact Herr | reflexivity].
Qed.

(** With [other] locked on its extent, the extent phase fails and nothing
    has changed. *)
Lemma match_locked_other_extent (check_match : bool) A B st e :
  Grid.extent A = Some e -> Grid.gpts A = None ->
  Grid.extent B = None -> Grid._lock_extent B = true ->
  Grid.match_ same_object check_match (A, B, st)
  = (Raise (RuntimeError "Extent cannot be modified" []), (A, B, st)).
Proof.
  intros HAe HAg HBe HBl.
  rewrite match_check_passes by (apply check_match_one_sided; assumption).
  unfold Grid.match_, bind, gets, lift, ret, raise, Grid.self_, Grid.other_.
  cbn beta iota. rewrite HAe, HBe. cbn [is_None andb].
  unfold Grid.on_other, Grid.set_extent, watched_method, Grid.extent_fset,
    bind, gets, raise.
  rewrite HBl. reflexivity.
Qed.

(** C10 (as the code has it). [Grid.match] is not atomic.  Take the extent
    of [self] defined, its gpts undefined, and the extent and gpts of
    [other] undefined.  (1) When [other] has no sampling either, is not
    locked on its extent and has as many dimensions as the extent has
    entries, the call raises the error that gpts cannot be inferred, and by
    then the extent phase has run: [other] holds the extent of [self], its
    event has been notified once and its callbacks have run, while [self]
    is as before.  (2) When [other] is locked on its extent, the call
    raises the error of that lock instead and nothing has changed.
    (3) Whatever [other] is otherwise, if the call ends in the error that
    gpts cannot be inferred, [other] holds the extent of [self] by then. *)
Theorem Grid_match_not_atomic (check_match : bool) A B st e :
  Grid.extent A = Some e -> Grid.gpts A = None ->
  Grid.extent B = None -> Grid.gpts B = None ->
  (Grid.sampling B = None -> Grid._lock_extent B = false ->
   Z.of_nat (length e) = Grid.dimensions B ->
   exists B' st',
     Grid.match_ same_object check_match (A, B, st)
     = (Raise (RuntimeError "Grid gpts cannot be inferred" []), (A, B', st')) /\
     Grid.extent B' = Some e /\
     Grid.extent B' <> Grid.extent B /\
     Grid.gpts B' = None /\ Grid.sampling B' = None /\
     notify_count (Grid.changed B') = notify_count (Grid.changed B) + 1 /\
     st' = (notify (Grid.changed B) "extent" true st).2) /\
  (Grid._lock_extent B = true ->
   Grid.match_ same_object check_match (A, B, st)
   = (Raise (RuntimeError "Extent cannot be modified" []), (A, B, st))) /\
  (forall r A' B' st' fa,
      Grid.match_ same_object check_match (A, B, st) = (r, (A', B', st')) ->
      r = Raise (RuntimeError "Grid gpts cannot be inferred" fa) ->
      Grid.extent B' = Some e /\
      Grid.extent B' <> Grid.extent B /\
      A' = A /\
      notify_count (Grid.changed B') = notify_count (Grid.changed B) + 1).
Proof.
  intros HAe HAg HBe HBg. split; [| split].
  - intros HBs HBl Hlen. eexists _, _.
    split; [exact (match_gpts_not_inferred check_match A B st e
                     HAe HAg HBe HBg HBs HBl Hlen) |].
    destruct B as [ev dims endpoint le lg lsm eB nB sB]. simpl in *. subst.
    repeat split. discriminate.
  - intros HBl. exact (match_locked_other_extent check_match A B st e
                         HAe HAg HBe HBl).
  - intros r A' B' st' fa Hmatch Hr.
    exact (match_not_inferred_inv check_match A B st e r A' B' st' fa
             HAe HAg HBe HBg Hmatch Hr).
Qed.

(** Assigning an extent, resp. gpts, to an unlocked grid whose gpts, resp.
    extent, is defined: the sampling follows. *)
Lemma set_extent_follow value A st ls na ss :
  Grid._lock_extent A = false -> Grid._lock_sampling A = false ->
  Grid.gpts A = Some na ->
  Grid._validate (Grid.dimensions A) value to_float = Ok (Some ls) ->
  sampling_of (Grid.endpoint A) ls na = Ok ss ->
  Grid.set_extent value (A, st) =
  (Ok tt,
   (Grid.with_changed
      (Grid.with_extent (Some ls) (Grid.with_sampling (Some ss) A))
      (notify (Grid.changed A) "extent" true st).1,
    (notify (Grid.changed A) "extent" true st).2)).
Proof.
  destruct A as [ev dims endpoint le lg lsm e n s]. simpl.
  intros -> -> -> Hval Hss.
  unfold Grid.set_extent, watched_method, Grid.extent_fset, bind, gets, lift,
    raise, Grid.dimensions. simpl. rewrite Hval. simpl.
  unfold Grid._adjust_sampling, sampling_of, bind, gets, lift, modify in *.
  simpl. destruct endpoint; rewrite Hss; reflexivity.
Qed.

Lemma set_gpts_follow value A st ea ns ss :
  Grid._lock_gpts A = false -> Grid._lock_sampling A = false ->
  Grid.extent A = Some ea ->
  Grid._validate (Grid.dimensions A) value to_int = Ok (Some ns) ->
  sampling_of (Grid.endpoint A) ea ns = Ok ss ->
  Grid.set_gpts value (A, st) =
  (Ok tt,
   (Grid.with_changed
      (Grid.with_gpts (Some ns) (Grid.with_sampling (Some ss) A))
      (notify (Grid.changed A) "gpts" true st).1,
    (notify (Grid.changed A) "gpts" true st).2)).
Proof.
  destruct A as [ev dims endpoint le lg lsm e n s]. simpl.
  intros -> -> -> Hval Hss.
  unfold Grid.set_gpts, watched_method, Grid.gpts_fset, bind, gets, lift,
    raise, Grid.dimensions. simpl. rewrite Hval. simpl.
  unfold Grid._adjust_sampling, sampling_of, bind, gets, lift, modify in *.
  simpl. destruct endpoint; rewrite Hss; reflexivity.
Qed.

(** C5 (as the code has it). (1) With the extent of [self] defined, its gpts
    undefined, and [other] with extent, gpts and sampling all undefined, an
    unlocked extent and as many dimensions as the extent has entries,
    [self.match(other)] fails with the state error that gpts cannot be
    inferred.  (2) With extent and gpts defined and differing on both sides,
    [self] unlocked, of the dimensions of the values of [other], and every
    gpts a usable divisor, [self.match(other)] completes, [self] has the
    extent and the gpts of [other], and [other] is unchanged. *)
Theorem Grid_match_other_authoritative :
  (forall (check_match : bool) A B st e,
      Grid.extent A = Some e -> Grid.gpts A = None ->
      Grid.extent B = None -> Grid.gpts B = None -> Grid.sampling B = None ->
      Grid._lock_extent B = false ->
      Z.of_nat (length e) = Grid.dimensions B ->
      (Grid.match_ same_object check_match (A, B, st)).1
      = Raise (RuntimeError "Grid gpts cannot be inferred" []) /\
      is_state_error (Grid.match_ same_object check_match (A, B, st)).1) /\
  (forall A B st ea na eb nb,
      Grid.extent A = Some ea -> Grid.gpts A = Some na ->
      Grid.extent B = Some eb -> Grid.gpts B = Some nb ->
      py_ne (float_item_eqb same_object) (Some ea) (Some eb) = true ->
      py_ne int_item_eqb (Some na) (Some nb) = true ->
      Grid._lock_extent A = false -> Grid._lock_gpts A = false ->
      Grid._lock_sampling A = false ->
      Z.of_nat (length eb) = Grid.dimensions A ->
      Z.of_nat (length nb) = Grid.dimensions A ->
      Forall (divisor_ok (Grid.endpoint A)) na ->
      Forall (divisor_ok (Grid.endpoint A)) nb ->
      exists A' st',
        Grid.match_ same_object false (A, B, st) = (Ok tt, (A', B, st')) /\
        Grid.extent A' = Grid.extent B /\
        Grid.gpts A' = Grid.gpts B).
Proof.
  split.
  - intros cm A B st e HAe HAg HBe HBg HBs HBl Hlen.
    rewrite (match_gpts_not_inferred cm A B st e) by assumption.
    simpl. split; [reflexivity | exact I].
  - intros A B st ea na eb nb HAe HAg HBe HBg Hne Hng Hle Hlg Hls Hdim_e
      Hdim_n Hna Hnb.
    destruct (sampling_of_ok (Grid.endpoint A) eb na Hna) as [ss1 Hss1].
    destruct (sampling_of_ok (Grid.endpoint A) eb nb Hnb) as [ss2 Hss2].
    unfold Grid.match_, bind, gets, lift, ret, raise, Grid.self_, Grid.other_.
    cbn beta iota. rewrite HAe, HBe, Hne. cbn [is_None andb].
    unfold Grid.on_self at 1.
    rewrite (set_extent_follow _ A st eb na ss1)
      by auto using validate_floats.
    cbn beta iota. rewrite gpts_with_changed.
    set (A1 := Grid.with_extent (Some eb) (Grid.with_sampling (Some ss1) A)).
    change (Grid.gpts A1) with (Grid.gpts A). rewrite HAg, HBg, Hng.
    cbn [is_None andb]. unfold Grid.on_self.
    rewrite (set_gpts_follow _ (Grid.with_changed A1 _) _ eb nb ss2);
      try assumption; try reflexivity.
    + eexists _, _. split; [reflexivity |]. split; reflexivity.
    + apply validate_ints. exact Hdim_n.
Qed.

End grid_match.

(** ** Accelerator.match *)

Section accelerator_match.
Context {K V : Type}.
Implicit Types (A B : Accelerator.t) (st : Store K V).

Ltac run_match :=
  unfold Accelerator.match_, Accelerator.on_self, Accelerator.on_other,
    Accelerator.set_energy, watched_method, Accelerator.energy_fset,
    Accelerator.check_match, Accelerator.self_, Accelerator.other_,
    Accelerator.float_or_None, bind, gets, lift, ret, raise, modify;
  simpl.

(** Once both energies are the same float, [match] no longer changes them,
    whatever its outcome. *)
Lemma match_stable (check_match : bool) A B st x :
  Accelerator.energy A = Some x -> Accelerator.energy B = Some x ->
  Accelerator.energy (Accelerator.match_ check_match (A, B, st)).2.1.1 = Some x /\
  Accelerator.energy (Accelerator.match_ check_match (A, B, st)).2.1.2 = Some x.
Proof.
  destruct A as [evA eA lA], B as [evB eB lB]. simpl. intros -> ->.
  run_match.
  destruct check_match; simpl; [destruct (x =? x)%float; simpl |];
    destruct lA; simpl; split; reflexivity.
Qed.

(** A completed [match] leaves both energies defined and equal. *)
Lemma match_ok_agree (check_match : bool) A B st A' B' st' :
  Accelerator.match_ check_match (A, B, st) = (Ok tt, (A', B', st')) ->
  exists x, Accelerator.energy A' = Some x /\ Accelerator.energy B' = Some x.
Proof.
  destruct A as [evA [a|] lA], B as [evB [b|] lB]; run_match.
  all: destruct check_match; simpl; try discriminate.
  all: try (destruct (a =? b)%float; simpl; try discriminate).
  all: try (destruct lA; simpl; try discriminate).
  all: try (destruct lB; simpl; try discriminate).
  all: intros [= <- <- <-]; simpl; eauto.
Qed.

(** C8 (as the code has it). [Accelerator.match] fails with a state error
    when both energies are undefined.  When only the energy of [other] is
    undefined and [other] is not locked, [other] adopts the energy of
    [self].  When the energy of [other] is defined, [self] is not locked and
    the requested check does not reject the pair, [self] adopts the energy
    of [other].  After a completed [A.match(B)], a repeated [A.match(B)]
    changes neither energy.  When the check is requested and both energies
    are defined and differ, the call raises "Inconsistent energies".
    Otherwise, when the side that would adopt is locked, the call raises
    "Energy cannot be modified", also when the energies are already equal.
    No failure changes an accelerator or a cache. *)
Theorem Accelerator_match_directed (check_match : bool) A B st :
  (Accelerator.energy A = None -> Accelerator.energy B = None ->
   Accelerator.match_ check_match (A, B, st)
   = (Raise (RuntimeError "Energy cannot be inferred" []), (A, B, st))) /\
  (forall a,
      Accelerator.energy A = Some a -> Accelerator.energy B = None ->
      Accelerator._lock_energy B = false ->
      exists B' st',
        Accelerator.match_ check_match (A, B, st) = (Ok tt, (A, B', st')) /\
        Accelerator.energy B' = Some a) /\
  (forall b,
      Accelerator.energy B = Some b ->
      Accelerator._lock_energy A = false ->
      (check_match = true -> Accelerator.check_match A B = Ok tt) ->
      exists A' st',
        Accelerator.match_ check_match (A, B, st) = (Ok tt, (A', B, st')) /\
        Accelerator.energy A' = Some b) /\
  (forall A' B' st',
      Accelerator.match_ check_match (A, B, st) = (Ok tt, (A', B', st')) ->
      forall check_match' : bool,
        Accelerator.energy
          (Accelerator.match_ check_match' (A', B', st')).2.1.1
        = Accelerator.energy A' /\
        Accelerator.energy
          (Accelerator.match_ check_match' (A', B', st')).2.1.2
        = Accelerator.energy B') /\
  (forall a b,
      check_match = true ->
      Accelerator.energy A = Some a -> Accelerator.energy B = Some b ->
      (a =? b)%float = false ->
      Accelerator.match_ check_match (A, B, st)
      = (Raise (RuntimeError "Inconsistent energies" []), (A, B, st))) /\
  (forall a,
      Accelerator.energy A = Some a -> Accelerator.energy B = None ->
      Accelerator._lock_energy B = true ->
      Accelerator.match_ check_match (A, B, st)
      = (Raise (RuntimeError "Energy cannot be modified" []), (A, B, st))) /\
  (forall b,
      Accelerator.energy B = Some b ->
      Accelerator._lock_energy A = true ->
      (check_match = true -> Accelerator.check_match A B = Ok tt) ->
      Accelerator.match_ check_match (A, B, st)
      = (Raise (RuntimeError "Energy cannot be modified" []), (A, B, st))) /\
  (forall e A' B' st',
      Accelerator.match_ check_match (A, B, st) = (Raise e, (A', B', st')) ->
      A' = A /\ B' = B /\ st' = st /\
      exists msg,
        e = RuntimeError msg [] /\
        In msg ["Inconsistent energies"; "Energy cannot be inferred";
                "Energy cannot be modified"]).
Proof.
  split; [| split; [| split; [| split; [| split; [| split; [| split]]]]]].
  - destruct A as [evA eA lA], B as [evB eB lB]. simpl. intros -> ->.
    run_match. destruct check_match; reflexivity.
  - destruct A as [evA eA lA], B as [evB eB lB]. simpl. intros a -> -> ->.
    run_match. destruct check_match; simpl; eexists _, _; split; reflexivity.
  - destruct A as [evA [a|] lA], B as [evB eB lB]; simpl; intros b -> -> Hcheck.
    all: revert Hcheck; run_match; destruct check_match; simpl.
    all: intros Hcheck; try rewrite Hcheck by reflexivity; simpl.
    all: eexists _, _; split; reflexivity.
  - intros A' B' st' Hok check_match'.
    apply match_ok_agree in Hok as (x & HA' & HB'). rewrite HA', HB'.
    apply match_stable; assumption.
  - destruct A as [evA eA lA], B as [evB eB lB]. simpl.
    intros a b -> -> -> Hne. run_match. rewrite Hne. reflexivity.
  - destruct A as [evA eA lA], B as [evB eB lB]. simpl. intros a -> -> ->.
    run_match. destruct check_match; reflexivity.
  - destruct A as [evA [a|] lA], B as [evB eB lB]; simpl; intros b -> -> Hcheck.
    all: revert Hcheck; run_match; destruct check_match; simpl.
    all: intros Hcheck; try rewrite Hcheck by reflexivity; reflexivity.
  - destruct A as [evA [a|] lA], B as [evB [b|] lB]; run_match.
    all: destruct check_match; simpl.
    all: try (destruct (a =? b)%float; simpl).
    all: try (destruct lA; simpl).
    all: try (destruct lB; simpl).
    all: intros e A' B' st' [= <- <- <- <-]
         || (intros e A' B' st'; discriminate).
    all: repeat split; eexists; split; [reflexivity |]; simpl; tauto.
Qed.

End accelerator_match.

(** ** Memoized methods *)

Section memoization.
Context {F A V T : Type} `{EqDecision F} `{EqDecision A}.
Implicit Types (r : HasGridMixin.t T) (st : Store (F * A) V) (key : F * A).

Lemma insert_into_empty (ms : option Z) key (value : V) (h m : Z) :
  (ms = None \/ exists k, ms = Some k /\ 1 <= k) ->
  insert key value (@mkCache (F * A) V ms [] h m)
  = (Ok tt, @mkCache (F * A) V ms [(key, value)] h m).
Proof.
  intros [-> | (k & -> & Hk)]; unfold insert, bind, modify, _check_size; simpl.
  - reflexivity.
  - case Z.gtb_spec; [lia | reflexivity].
Qed.

(** A call that finds nothing under its key runs the method and stores the
    result. *)
Lemma cached_method_miss (func_id : F) (func : A -> M (HasGridMixin.t T) V)
  (args : A) r r' st (ms : option Z) value :
  st !! HasGridMixin.cache r = Some (@mkCache (F * A) V ms [] 0 0) ->
  (ms = None \/ exists k, ms = Some k /\ 1 <= k) ->
  func args r = (Ok value, r') ->
  cached_method HasGridMixin.cache func_id func args (r, st)
  = (Ok value,
     (r', <[HasGridMixin.cache r :=
              @mkCache (F * A) V ms [((func_id, args), value)] 0 1]> st)).
Proof.
  intros Hst Hms Hfunc. unfold cached_method. rewrite Hst. simpl.
  rewrite Hfunc, (insert_into_empty ms) by assumption. reflexivity.
Qed.

(** A call that finds its key returns the stored result without running the
    method. *)
Lemma cached_method_hit (func_id : F) (func : A -> M (HasGridMixin.t T) V)
  (args : A) r st (ms : option Z) value (h m : Z) :
  st !! HasGridMixin.cache r
  = Some (@mkCache (F * A) V ms [((func_id, args), value)] h m) ->
  cached_method HasGridMixin.cache func_id func args (r, st)
  = (Ok value,
     (r, <[HasGridMixin.cache r :=
             @mkCache (F * A) V ms [((func_id, args), value)] (h + 1) m]> st)).
Proof.
  intros Hst. unfold cached_method. rewrite Hst. simpl.
  rewrite decide_True by reflexivity. unfold retrieve. simpl.
  rewrite decide_True by reflexivity. reflexivity.
Qed.

(** C3 (as the code has it). On a receiver whose cache is fresh and can
    hold at least one entry, two calls of a memoized method with the same
    arguments run the method once: both return its result and the receiver's
    own attributes are as after one run; the cache then has hit count 1 and
    miss counter 1.  When the invalidation callback of the cache is
    registered on the grid's event and an assignment to the grid completes,
    the cache is cleared, counters included, and a third call runs the
    method again on the new grid; the miss counter is then 1 and the hit
    counter 0. *)
Theorem cached_method_recomputes_after_change
  (func_id : F) (body : Grid.t -> A -> M T V) (args : A)
  r st (ms : option Z) value attrs1 :
  let memo := cached_method HasGridMixin.cache func_id (HasGridMixin.method body) in
  st !! HasGridMixin.cache r = Some (Cache_init ms) ->
  (ms = None \/ exists k, ms = Some k /\ 1 <= k) ->
  body (HasGridMixin.grid r) args (HasGridMixin.attrs r) = (Ok value, attrs1) ->
  exists r2 st2 c2,
    (memo args (r, st)).1 = Ok value /\
    memo args (memo args (r, st)).2 = (Ok value, (r2, st2)) /\
    HasGridMixin.attrs r2 = attrs1 /\
    HasGridMixin.grid r2 = HasGridMixin.grid r /\
    st2 !! HasGridMixin.cache r = Some c2 /\
    hits c2 = 1 /\ _misses c2 = 1 /\
    forall name new r3 st3 value' attrs2,
      cache_clear_callback (HasGridMixin.cache r)
        ∈ callbacks (Grid.changed (HasGridMixin.grid r)) ->
      HasGridMixin.delegated_set name new (r2, st2) = (Ok tt, (r3, st3)) ->
      body (HasGridMixin.grid r3) args attrs1 = (Ok value', attrs2) ->
      exists r4 st4 c4,
        memo args (r3, st3) = (Ok value', (r4, st4)) /\
        HasGridMixin.attrs r4 = attrs2 /\
        st4 !! HasGridMixin.cache r = Some c4 /\
        cached c4 = [((func_id, args), value')] /\
        _misses c4 = 1 /\ _hits c4 = 0.
Proof.
  intros memo Hst Hms Hbody. subst memo.
  destruct r as [g c a].
  cbn [HasGridMixin.cache HasGridMixin._cache HasGridMixin.grid
       HasGridMixin._grid HasGridMixin.attrs] in *.
  set (r1 := HasGridMixin.mk g c attrs1).
  assert (Hcall1 :
    cached_method HasGridMixin.cache func_id (HasGridMixin.method body) args
      (HasGridMixin.mk g c a, st)
    = (Ok value, (r1, <[c := @mkCache (F * A) V ms [((func_id, args), value)] 0 1]> st))).
  { apply (cached_method_miss _ _ _ (HasGridMixin.mk g c a)); try assumption.
    unfold HasGridMixin.method. simpl. rewrite Hbody. reflexivity. }
  assert (Hcall2 :
    cached_method HasGridMixin.cache func_id (HasGridMixin.method body) args
      (r1, <[c := @mkCache (F * A) V ms [((func_id, args), value)] 0 1]> st)
    = (Ok value,
       (r1, <[c := @mkCache (F * A) V ms [((func_id, args), value)] 1 1]>
              (<[c := @mkCache (F * A) V ms [((func_id, args), value)] 0 1]> st)))).
  { apply (cached_method_hit _ _ _ r1 _ ms value 0 1). simpl.
    apply lookup_insert_eq. }
  eexists _, _, _. rewrite Hcall1. cbn [fst snd].
  split; [reflexivity |]. split; [exact Hcall2 |].
  split; [reflexivity |]. split; [reflexivity |].
  split; [apply lookup_insert_eq |]. split; [reflexivity |].
  split; [reflexivity |].
  intros name new r3 st3 value' attrs2 Hreg Hset Hbody3.
  unfold HasGridMixin.delegated_set in Hset. simpl in Hset.
  destruct (Grid.setattr name new _) as [r0 [g3 st3']] eqn:Hattr.
  injection Hset as -> <- <-.
  apply setattr_outcome in Hattr as (g1 & _ & _ & _ & Hst3).
  assert (Hcleared : st3' !! c = Some (@mkCache (F * A) V ms [] 0 0)).
  { rewrite Hst3. unfold notify. simpl.
    erewrite run_callbacks_clears; [| apply lookup_insert_eq | exact Hreg].
    reflexivity. }
  eexists _, _, _. split.
  - apply (cached_method_miss _ _ _ (HasGridMixin.mk g3 c attrs1));
      try eassumption.
    unfold HasGridMixin.method. simpl in *. rewrite Hbody3. reflexivity.
  - simpl. split; [reflexivity |]. split; [apply lookup_insert_eq |].
    repeat split.
Qed.

End memoization.

(** * Concrete runs *)

(** The example grids are what the constructor builds. *)
Example grid_10_8_init :
  Grid.__init__ (PyScalar (PyInt 10)) (PyScalar (PyInt 8)) PyNone 2
    false false false false = Ok grid_10_8.
Proof. reflexivity. Qed.

Example grid_s075_locked_init :
  Grid.__init__ PyNone PyNone (PyScalar (PyFloat 0.75)) 2
    false false false true = Ok grid_s075_locked.
Proof. reflexivity. Qed.

Example grid_s05_init :
  Grid.__init__ PyNone PyNone (PyScalar (PyFloat 0.5)) 2
    false false false false = Ok grid_s05.
Proof. reflexivity. Qed.

(** C1, counterexample. Assigning to the unlocked extent of
    [Grid(extent=10, gpts=8)] the value it already has changes no descriptor,
    and still increments the notification counter from 0 to 1. *)
Lemma Grid_same_value_assignment_notifies :
  Grid.locked Grid.Extent grid_10_8 = false /\
  Grid.setattr Grid.Extent (Grid.getattr Grid.Extent grid_10_8)
    (grid_10_8, (∅ : gmap nat (Cache nat nat)))
  = (Ok tt,
     (Grid.with_changed grid_10_8 (mkEvent [] 1),
      (∅ : gmap nat (Cache nat nat)))) /\
  notify_count (Grid.changed grid_10_8) = 0 /\
  notify_count (Grid.changed (Grid.with_changed grid_10_8 (mkEvent [] 1))) = 1.
Proof. repeat split. Qed.

Lemma Grid_setattr_notify_count_witness :
  Grid.setattr Grid.Extent (PyScalar (PyInt 20))
    (grid_10_8, (∅ : gmap nat (Cache nat nat)))
  = (Ok tt,
     (Grid.mk (mkEvent [] 1) 2 false false false false
        (Some [20; 20]%float) (Some [8; 8]) (Some [2.5; 2.5]%float),
      (∅ : gmap nat (Cache nat nat)))) /\
  notify_count
    (Grid.changed
       (Grid.mk (mkEvent [] 1) 2 false false false false
          (Some [20; 20]%float) (Some [8; 8]) (Some [2.5; 2.5]%float)))
  = notify_count (Grid.changed grid_10_8) + 1.
Proof.
  assert (H : Grid.setattr Grid.Extent (PyScalar (PyInt 20))
                (grid_10_8, (∅ : gmap nat (Cache nat nat)))
              = (Ok tt,
                 (Grid.mk (mkEvent [] 1) 2 false false false false
                    (Some [20; 20]%float) (Some [8; 8]) (Some [2.5; 2.5]%float),
                  (∅ : gmap nat (Cache nat nat))))) by reflexivity.
  split; [exact H |].
  exact (Grid_setattr_notify_count _ _ _ _ _ _ _ H).
Defined.

(** C2, counterexample. On [Grid(sampling=0.75, lock_sampling=True)],
    assigning the extent 1.0 gives gpts [ceil(1.0 / 0.75) = 2] and replaces
    the locked sampling 0.75 by [1.0 / 2 = 0.5]. *)
Lemma Grid_locked_sampling_changes :
  Grid.__init__ PyNone PyNone (PyScalar (PyFloat 0.75)) 2
    false false false true = Ok grid_s075_locked /\
  Grid.sampling grid_s075_locked = Some [0.75; 0.75]%float /\
  Grid.set_extent (PyScalar (PyFloat 1))
    (grid_s075_locked, (∅ : gmap nat (Cache nat nat)))
  = (Ok tt,
     (Grid.mk (mkEvent [] 1) 2 false false false true
        (Some [1; 1]%float) (Some [2; 2]) (Some [0.5; 0.5]%float),
      (∅ : gmap nat (Cache nat nat)))) /\
  Some [0.5; 0.5]%float <> Grid.sampling grid_s075_locked.
Proof.
  split; [reflexivity |]. split; [reflexivity |]. split; [reflexivity |].
  simpl. intros [=].
Qed.

Lemma Grid_lock_sampling_set_extent_witness :
  Grid._lock_sampling grid_s075_locked = true /\
  Grid._lock_extent grid_s075_locked = false /\
  Grid.sampling grid_s075_locked = Some [0.75; 0.75]%float /\
  Grid._validate (Grid.dimensions grid_s075_locked) (PyScalar (PyFloat 1))
    to_float = Ok (Some [1; 1]%float) /\
  Grid.set_extent (PyScalar (PyFloat 1))
    (grid_s075_locked, (∅ : gmap nat (Cache nat nat)))
  = (Ok tt,
     (Grid.mk (mkEvent [] 1) 2 false false false true
        (Some [1; 1]%float) (Some [2; 2]) (Some [0.5; 0.5]%float),
      (∅ : gmap nat (Cache nat nat)))).
Proof.
  split; [reflexivity |]. split; [reflexivity |]. split; [reflexivity |].
  split; [reflexivity |].
  exact (Grid_lock_sampling_set_extent (K := nat) (V := nat)
           (PyScalar (PyFloat 1)) grid_s075_locked ∅
           [1; 1]%float [0.75; 0.75]%float
           eq_refl eq_refl eq_refl eq_refl).
Defined.

(** C6, an instance: writing any of the three descriptors of a grid locked
    on it. *)
Lemma Grid_locked_write_fails_witness :
  Grid.locked Grid.Extent grid_10_8_locked = true /\
  Grid.setattr Grid.Extent (PyScalar (PyInt 20))
    (grid_10_8_locked, (∅ : gmap nat (Cache nat nat)))
  = (Raise (RuntimeError "Extent cannot be modified" []),
     (grid_10_8_locked, (∅ : gmap nat (Cache nat nat)))) /\
  Grid.locked Grid.Sampling grid_s075_locked = true /\
  Grid.setattr Grid.Sampling (PyScalar (PyFloat 0.5))
    (grid_s075_locked, (∅ : gmap nat (Cache nat nat)))
  = (Raise (RuntimeError "Sampling cannot be modified" []),
     (grid_s075_locked, (∅ : gmap nat (Cache nat nat)))).
Proof.
  split; [reflexivity |]. split.
  - exact (proj1 (Grid_locked_write_fails (K := nat) (V := nat) Grid.Extent
                    (PyScalar (PyInt 20)) grid_10_8_locked ∅ eq_refl)).
  - split; [reflexivity |].
    exact (proj1 (Grid_locked_write_fails (K := nat) (V := nat) Grid.Sampling
                    (PyScalar (PyFloat 0.5)) grid_s075_locked ∅ eq_refl)).
Defined.

(** C9, the failing input. [Grid(gpts=1, sampling=0.5, endpoint=True)]
    raises [ZeroDivisionError]: the extent [(1 - 1) * 0.5] is computed, and
    the constructor then divides it by [gpts - 1 = 0] to derive the sampling
    again.  Without the endpoint the same arguments build a grid. *)
Theorem Grid_init_one_point_endpoint :
  Grid.__init__ PyNone (PyScalar (PyInt 1)) (PyScalar (PyFloat 0.5)) 2
    true false false false = Raise ZeroDivisionError /\
  extent_of true [1; 1] [0.5; 0.5]%float = Ok [0; 0]%float /\
  Grid.__init__ PyNone (PyScalar (PyInt 1)) (PyScalar (PyFloat 0.5)) 2
    false false false false
  = Ok (Grid.mk Event_init 2 false false false false
          (Some [0.5; 0.5]%float) (Some [1; 1]) (Some [0.5; 0.5]%float)).
Proof. repeat split. Qed.

(** C4, an instance: four keys into a cache of size three; and, in a full
    cache of size three, key 2 re-inserted before the fresh key 4 arrives:
    key 1 is evicted and key 2 stays in front of key 3. *)
Lemma Cache_insert_fifo_witness :
  NoDup [1; 2; 3; 4]%nat /\
  length [(1, 10); (2, 20); (3, 30); (4, 40)]%nat = 4%nat /\
  (exists c',
      insert_all [(1, 10); (2, 20); (3, 30); (4, 40)]%nat (Cache_init (Some 3))
      = (Ok tt, c') /\
      cached c' = [(2, 20); (3, 30); (4, 40)]%nat) /\
  (exists c',
      insert_all ([(2, 21)] ++ [(4, 40)])%nat
        (@mkCache nat nat (Some 3) [(1, 10); (2, 20); (3, 30)]%nat 0 0)
      = (Ok tt, c') /\
      (cached c').*1 = [2; 3; 4]%nat).
Proof.
  assert (Hnd : NoDup ([(1, 10); (2, 20); (3, 30); (4, 40)]%nat).*1).
  { exact (bool_decide_unpack (NoDup [1; 2; 3; 4]%nat) I). }
  split; [exact Hnd |]. split; [reflexivity |].
  destruct (Cache_insert_fifo 3 [(1, 10); (2, 20); (3, 30); (4, 40)]%nat
              Hnd eq_refl)
    as ((c' & Hrun & Hcached & _) & _ & _ & _ & Hgeneral).
  split.
  - exists c'. split; [exact Hrun | exact Hcached].
  - apply (Hgeneral (@mkCache nat nat (Some 3)
                       [(1, 10); (2, 20); (3, 30)]%nat 0 0)
             [(2, 21)]%nat [(4, 40)]%nat).
    + reflexivity.
    + unfold len. simpl. lia.
    + exact Hnd.
    + intros kv Hkv. apply list_elem_of_singleton in Hkv. subst kv.
      simpl. right. left.
Defined.

(** C7, an instance: one non-empty cache, its callback registered. *)
Lemma cache_clear_callback_iff_change_witness :
  let c := @mkCache nat nat None [(1, 10)]%nat 3 4 in
  let st : gmap nat (Cache nat nat) := {[ 0%nat := c ]} in
  let ev := mkEvent [cache_clear_callback 0] 0 in
  st !! 0%nat = Some c /\
  cache_clear_callback 0 ∈ callbacks ev /\
  (notify ev "extent" true st).2 !! 0%nat = Some (clear c) /\
  (notify ev "extent" false st).2 !! 0%nat = Some c.
Proof.
  intros c st ev.
  assert (Hst : st !! 0%nat = Some c) by reflexivity.
  assert (Hin : cache_clear_callback 0 ∈ callbacks ev) by (simpl; left).
  split; [exact Hst |]. split; [exact Hin |]. split.
  - exact (proj1 (proj2 (cache_clear_callback_iff_change 0 ev "extent" true
                           st c Hst Hin))).
  - exact (proj1 (proj2 (cache_clear_callback_iff_change 0 ev "extent" false
                           st c Hst Hin))).
Defined.

(** C3, counterexample. Two calls, an assignment of a new extent through the
    object, a third call: the method runs a second time, but the cache was
    cleared with its counters, so its miss counter is 1 and the [misses]
    property, which reads the hit counter, reports 0; neither is 2. *)
Lemma cached_method_miss_count_after_clear :
  let memo := cached_method HasGridMixin.cache 7%nat
                (HasGridMixin.method count_runs) in
  let s1 := memo 5%nat (receiver_0, store_0) in
  let s2 := memo 5%nat s1.2 in
  let s3 := HasGridMixin.delegated_set Grid.Extent (PyScalar (PyInt 20)) s2.2 in
  let s4 := memo 5%nat s3.2 in
  s1.1 = Ok 5%nat /\ s2.1 = Ok 5%nat /\
  HasGridMixin.attrs s2.2.1 = 1%nat /\
  hits <$> s2.2.2 !! 0%nat = Some 1 /\
  misses <$> s2.2.2 !! 0%nat = Some 1 /\
  s3.1 = Ok tt /\
  Grid.extent (HasGridMixin.grid s2.2.1) = Some [10; 10]%float /\
  Grid.extent (HasGridMixin.grid s3.2.1) = Some [20; 20]%float /\
  s4.1 = Ok 6%nat /\
  HasGridMixin.attrs s4.2.1 = 2%nat /\
  _misses <$> s4.2.2 !! 0%nat = Some 1 /\
  misses <$> s4.2.2 !! 0%nat = Some 0.
Proof. vm_compute. repeat split. Qed.

Lemma cached_method_recomputes_after_change_witness :
  let memo := cached_method HasGridMixin.cache 7%nat
                (HasGridMixin.method count_runs) in
  let s2 := memo 5%nat (memo 5%nat (receiver_0, store_0)).2 in
  let s3 := HasGridMixin.delegated_set Grid.Extent (PyScalar (PyInt 20)) s2.2 in
  store_0 !! HasGridMixin.cache receiver_0 = Some (Cache_init None) /\
  count_runs (HasGridMixin.grid receiver_0) 5%nat (HasGridMixin.attrs receiver_0)
  = (Ok 5%nat, 1%nat) /\
  s3.1 = Ok tt /\
  exists r4 st4 c4,
    memo 5%nat (s3.2.1, s3.2.2) = (Ok 6%nat, (r4, st4)) /\
    HasGridMixin.attrs r4 = 2%nat /\
    st4 !! 0%nat = Some c4 /\
    cached c4 = [((7, 5), 6)]%nat /\
    _misses c4 = 1 /\ _hits c4 = 0.
Proof.
  intros memo s2 s3.
  split; [reflexivity |]. split; [reflexivity |].
  split; [vm_compute; reflexivity |].
  destruct (cached_method_recomputes_after_change 7%nat count_runs 5%nat
              receiver_0 store_0 None 5%nat 1%nat
              eq_refl (or_introl eq_refl) eq_refl)
    as (r2 & st2 & c2 & _ & Hcall2 & _ & _ & _ & _ & _ & Hthird).
  assert (Hs2 : s2.2 = (r2, st2)).
  { subst s2 memo. rewrite Hcall2. reflexivity. }
  apply (Hthird Grid.Extent (PyScalar (PyInt 20)) s3.2.1 s3.2.2 6%nat 2%nat).
  - simpl. left.
  - rewrite <- Hs2. vm_compute. reflexivity.
  - vm_compute. reflexivity.
Defined.

(** C5, counterexample. [Grid(extent=10).match(Grid(sampling=0.5))]: the
    extent of [self] is defined and its gpts is not, [other] has neither,
    and the call completes, because [other] derives gpts from its sampling
    when it takes the extent, and [self] then takes that gpts. *)
Lemma Grid_match_derives_gpts_from_sampling :
  Grid.extent grid_10 = Some [10; 10]%float /\ Grid.gpts grid_10 = None /\
  Grid.extent grid_s05 = None /\ Grid.gpts grid_s05 = None /\
  Grid.match_ distinct_objects false
    (grid_10, grid_s05, (∅ : gmap nat (Cache nat nat)))
  = (Ok tt,
     (Grid.mk (mkEvent [] 1) 2 false false false false
        (Some [10; 10]%float) (Some [20; 20]) (Some [0.5; 0.5]%float),
      Grid.mk (mkEvent [] 1) 2 false false false false
        (Some [10; 10]%float) (Some [20; 20]) (Some [0.5; 0.5]%float),
      (∅ : gmap nat (Cache nat nat)))).
Proof. repeat split. Qed.

Lemma Grid_match_other_authoritative_witness :
  (Grid.match_ distinct_objects false
     (grid_10, grid_empty, (∅ : gmap nat (Cache nat nat)))).1
  = Raise (RuntimeError "Grid gpts cannot be inferred" []) /\
  exists A' st',
    Grid.match_ distinct_objects false
      (grid_10_8, grid_20_16, (∅ : gmap nat (Cache nat nat)))
    = (Ok tt, (A', grid_20_16, st')) /\
    Grid.extent A' = Grid.extent grid_20_16 /\
    Grid.gpts A' = Grid.gpts grid_20_16.
Proof.
  destruct (Grid_match_other_authoritative (K := nat) (V := nat)
              distinct_objects) as [H1 H2].
  split.
  - exact (proj1 (H1 false grid_10 grid_empty ∅ [10; 10]%float
                    eq_refl eq_refl eq_refl eq_refl eq_refl eq_refl eq_refl)).
  - apply (H2 grid_10_8 grid_20_16 ∅ [10; 10]%float [8; 8]
              [20; 20]%float [16; 16]); try reflexivity.
    + repeat constructor; discriminate.
    + repeat constructor; discriminate.
Defined.

(** C10, counterexample. [Grid(extent=10).match(Grid(lock_extent=True))]
    and [Grid(extent=10).match(Grid(sampling=0.25))]: in both the extent
    of [self] is defined, its gpts is not, and [other] has neither.  The
    first raises the error of the lock and [other] still has no extent; the
    second completes, with gpts [ceil(10 / 0.25) = 40] on both sides.
    Neither raises the error that gpts cannot be inferred. *)
Lemma Grid_match_without_gpts_error :
  Grid.extent grid_10 = Some [10; 10]%float /\ Grid.gpts grid_10 = None /\
  Grid.extent grid_empty_locked = None /\ Grid.gpts grid_empty_locked = None /\
  Grid.extent grid_s025 = None /\ Grid.gpts grid_s025 = None /\
  Grid.match_ distinct_objects false
    (grid_10, grid_empty_locked, (∅ : gmap nat (Cache nat nat)))
  = (Raise (RuntimeError "Extent cannot be modified" []),
     (grid_10, grid_empty_locked, (∅ : gmap nat (Cache nat nat)))) /\
  Grid.match_ distinct_objects false
    (grid_10, grid_s025, (∅ : gmap nat (Cache nat nat)))
  = (Ok tt,
     (Grid.mk (mkEvent [] 1) 2 false false false false
        (Some [10; 10]%float) (Some [40; 40]) (Some [0.25; 0.25]%float),
      Grid.mk (mkEvent [] 1) 2 false false false false
        (Some [10; 10]%float) (Some [40; 40]) (Some [0.25; 0.25]%float),
      (∅ : gmap nat (Cache nat nat)))).
Proof. repeat split. Qed.

(** C10, an instance: [Grid(extent=10).match(Grid())]. *)
Lemma Grid_match_not_atomic_witness :
  exists B' st',
    Grid.match_ distinct_objects false
      (grid_10, grid_empty, (∅ : gmap nat (Cache nat nat)))
    = (Raise (RuntimeError "Grid gpts cannot be inferred" []),
       (grid_10, B', st')) /\
    Grid.extent B' = Some [10; 10]%float /\
    Grid.extent B' <> Grid.extent grid_empty /\
    Grid.gpts B' = None /\ Grid.sampling B' = None /\
    notify_count (Grid.changed B')
    = notify_count (Grid.changed grid_empty) + 1 /\
    st' = (notify (Grid.changed grid_empty) "extent" true ∅).2.
Proof.
  exact (proj1 (Grid_match_not_atomic (K := nat) (V := nat) distinct_objects
                  false grid_10 grid_empty ∅ [10; 10]%float
                  eq_refl eq_refl eq_refl eq_refl)
           eq_refl eq_refl eq_refl).
Defined.

(** C8, counterexample. [Accelerator(100).match(Accelerator(lock_energy=True))]:
    only the energy of [other] is undefined, and [other] does not adopt the
    energy of [self]; the call raises and both are as before. *)
Lemma Accelerator_match_locked_other :
  Accelerator.energy acc_100 = Some 100%float /\
  Accelerator.energy acc_empty_locked = None /\
  Accelerator.match_ false
    (acc_100, acc_empty_locked, (∅ : gmap nat (Cache nat nat)))
  = (Raise (RuntimeError "Energy cannot be modified" []),
     (acc_100, acc_empty_locked, (∅ : gmap nat (Cache nat nat)))).
Proof. repeat split. Qed.

Lemma Accelerator_match_directed_witness :
  Accelerator.match_ false (acc_empty, acc_empty, (∅ : gmap nat (Cache nat nat)))
  = (Raise (RuntimeError "Energy cannot be inferred" []),
     (acc_empty, acc_empty, (∅ : gmap nat (Cache nat nat)))) /\
  (exists B' st',
      Accelerator.match_ false
        (acc_100, acc_empty, (∅ : gmap nat (Cache nat nat)))
      = (Ok tt, (acc_100, B', st')) /\
      Accelerator.energy B' = Some 100%float) /\
  (exists A' st',
      Accelerator.match_ false
        (acc_100, acc_300, (∅ : gmap nat (Cache nat nat)))
      = (Ok tt, (A', acc_300, st')) /\
      Accelerator.energy A' = Some 300%float) /\
  Accelerator.energy
    (Accelerator.match_ false
       (Accelerator.mk (mkEvent [] 1) (Some 300%float) false, acc_300,
        (∅ : gmap nat (Cache nat nat)))).2.1.1
  = Some 300%float /\
  Accelerator.match_ true
    (acc_100_locked, acc_300, (∅ : gmap nat (Cache nat nat)))
  = (Raise (RuntimeError "Inconsistent energies" []),
     (acc_100_locked, acc_300, (∅ : gmap nat (Cache nat nat)))) /\
  Accelerator.match_ false
    (acc_100_locked, acc_300, (∅ : gmap nat (Cache nat nat)))
  = (Raise (RuntimeError "Energy cannot be modified" []),
     (acc_100_locked, acc_300, (∅ : gmap nat (Cache nat nat)))) /\
  Accelerator.match_ true
    (acc_100_locked, acc_100, (∅ : gmap nat (Cache nat nat)))
  = (Raise (RuntimeError "Energy cannot be modified" []),
     (acc_100_locked, acc_100, (∅ : gmap nat (Cache nat nat)))).
Proof.
  pose proof (Accelerator_match_directed (K := nat) (V := nat)) as H.
  split; [| split; [| split; [| split; [| split; [| split]]]]].
  - exact (proj1 (H false acc_empty acc_empty ∅) eq_refl eq_refl).
  - exact (proj1 (proj2 (H false acc_100 acc_empty ∅))
             100%float eq_refl eq_refl eq_refl).
  - exact (proj1 (proj2 (proj2 (H false acc_100 acc_300 ∅)))
             300%float eq_refl eq_refl
             (fun e => False_ind _ (Bool.diff_false_true e))).
  - exact (proj1 (proj1 (proj2 (proj2 (proj2 (H false acc_100 acc_300 ∅))))
                    (Accelerator.mk (mkEvent [] 1) (Some 300%float) false)
                    acc_300 ∅ eq_refl false)).
  - exact (proj1 (proj2 (proj2 (proj2 (proj2
             (H true acc_100_locked acc_300 ∅)))))
             100%float 300%float eq_refl eq_refl eq_refl eq_refl).
  - exact (proj1 (proj2 (proj2 (proj2 (proj2 (proj2 (proj2
             (H false acc_100_locked acc_300 ∅)))))))
             300%float eq_refl eq_refl
             (fun e => False_ind _ (Bool.diff_false_true e))).
  - exact (proj1 (proj2 (proj2 (proj2 (proj2 (proj2 (proj2
             (H true acc_100_locked acc_100 ∅)))))))
             100%float eq_refl eq_refl (fun _ => eq_refl)).
Defined.

(** Why C3 needs a cache that can hold an entry: with [max_size = 0] every
    insert is evicted at once, and the second call runs the method again. *)
Example cached_method_zero_capacity :
  let memo := cached_method HasGridMixin.cache 7%nat
                (HasGridMixin.method count_runs) in
  let st : gmap nat (Cache (nat * nat) nat) := {[ 0%nat := Cache_init (Some 0) ]} in
  let s2 := memo 5%nat (memo 5%nat (receiver_0, st)).2 in
  s2.1 = Ok 6%nat /\ HasGridMixin.attrs s2.2.1 = 2%nat /\
  _misses <$> s2.2.2 !! 0%nat = Some 2 /\ hits <$> s2.2.2 !! 0%nat = Some 0.
Proof. vm_compute. repeat split. Qed.

(** Why the second part of C5 needs [self] unlocked: a grid locked on its
    extent cannot adopt the extent of [other]. *)
Example Grid_match_locked_self :
  Grid.match_ distinct_objects false
    (grid_10_8_locked, grid_20_16, (∅ : gmap nat (Cache nat nat)))
  = (Raise (RuntimeError "Extent cannot be modified" []),
     (grid_10_8_locked, grid_20_16, (∅ : gmap nat (Cache nat nat)))).
Proof. reflexivity. Qed.

(** * Further properties of the code *)

(** ** Cache: lookups, bounds and eviction *)

Section cache_more.
Context {K V : Type} `{EqDecision K}.
Implicit Types (d : OrderedDict K V) (c : Cache K V) (key : K) (value : V).

Lemma od_getitem_app_fresh d key value :
  key ∉ d.*1 -> od_getitem (d ++ [(key, value)]) key = Ok value.
Proof.
  intros Hfresh. rewrite <- (od_setitem_fresh d key value Hfresh).
  apply od_getitem_setitem.
Qed.

Lemma od_getitem_contains d key :
  od_contains d key = true <-> exists value, od_getitem d key = Ok value.
Proof.
  induction d as [|[k v] d IH]; simpl.
  - split; [discriminate | intros [v [=]]].
  - destruct (decide (k = key)); [split; eauto | exact IH].
Qed.

Lemma popitem_loop_negative (max_size : Z) d :
  max_size < 0 -> popitem_loop max_size d = (Raise KeyError, []).
Proof.
  intros Hneg. induction d as [|kv d IH]; rewrite popitem_loop_unfold.
  - case Z.gtb_spec; simpl; [reflexivity | lia].
  - case Z.gtb_spec; [intros _; exact IH | simpl; lia].
Qed.

(** X1. In a cache that respects its bound and can hold an entry, what
    [insert] stores under a key is what [retrieve] returns for it. *)
Theorem Cache_insert_retrieve c key value :
  (_max_size c = None \/
   exists k, _max_size c = Some k /\ 1 <= k /\ len c <= k) ->
  exists c',
    insert key value c = (Ok tt, c') /\
    od_contains (cached c') key = true /\
    retrieve key c' = (Ok value, c').
Proof.
  intros [Hnone | (k & Hmax & Hk & Hlen)].
  - exists (with_cached c (od_setitem (_cached c) key value)).
    unfold insert, bind, modify, _check_size, retrieve, cached. simpl.
    rewrite Hnone. simpl. rewrite od_getitem_setitem.
    split; [reflexivity |]. split; [| reflexivity].
    apply od_getitem_contains. rewrite od_getitem_setitem. eauto.
  - assert (Hk' : k = Z.of_nat (Z.to_nat k)) by lia.
    rewrite Hk' in Hmax. unfold len in Hlen.
    eexists. split; [apply (insert_bounded (Z.to_nat k)); exact Hmax |].
    unfold retrieve, cached. simpl.
    assert (Hget : od_getitem
              (drop (length (od_setitem (_cached c) key value) - Z.to_nat k)
                 (od_setitem (_cached c) key value)) key = Ok value).
    { destruct (decide (key ∈ (_cached c).*1)) as [Hin | Hfresh].
      - destruct (od_setitem_present (_cached c) key value Hin) as [_ ->].
        replace (length (_cached c) - Z.to_nat k)%nat with 0%nat by lia.
        rewrite drop_0. apply od_getitem_setitem.
      - rewrite od_setitem_fresh by assumption. rewrite length_app. simpl.
        destruct (decide (length (_cached c) = Z.to_nat k)) as [Hfull | Hroom].
        + replace (length (_cached c) + 1 - Z.to_nat k)%nat with 1%nat by lia.
          destruct (_cached c) as [|kv d] eqn:Hd; [simpl in Hfull; lia |].
          simpl. rewrite drop_0. apply od_getitem_app_fresh.
          intros Hin. apply Hfresh. rewrite fmap_cons. by right.
        + replace (length (_cached c) + 1 - Z.to_nat k)%nat with 0%nat by lia.
          rewrite drop_0. by apply od_getitem_app_fresh. }
    rewrite Hget. split; [| reflexivity].
    apply od_getitem_contains. eauto.
Qed.

(** X2. [retrieve] never changes the cache; it raises [KeyError] exactly
    for the keys that are not in [cached], and otherwise returns the value
    stored with the key. *)
Theorem Cache_retrieve_membership c key :
  (retrieve key c).2 = c /\
  (od_contains (cached c) key = false <-> (retrieve key c).1 = Raise KeyError) /\
  (forall value, (retrieve key c).1 = Ok value -> (key, value) ∈ cached c).
Proof.
  unfold retrieve, cached. simpl. split; [reflexivity |]. split.
  - induction (_cached c) as [|[k v] d IH]; simpl; [done |].
    destruct (decide (k = key)); [split; discriminate | exact IH].
  - intros value. induction (_cached c) as [|[k v] d IH]; simpl; [discriminate |].
    destruct (decide (k = key)) as [->|Hne].
    + intros [= ->]. left.
    + intros Hget. right. exact (IH Hget).
Qed.

(** X3. With a negative [max_size] every [insert] raises [KeyError] (the
    eviction loop pops from the dictionary until it is empty and once more)
    and leaves the cache empty. *)
Theorem Cache_insert_negative_max_size c key value (max_size : Z) :
  _max_size c = Some max_size -> max_size < 0 ->
  insert key value c = (Raise KeyError, with_cached c []).
Proof.
  intros Hmax Hneg. unfold insert, bind, modify, _check_size. simpl.
  rewrite Hmax, popitem_loop_negative by assumption. reflexivity.
Qed.

(** X4. Inserting a new key into a full cache evicts the oldest entry and
    nothing else: the remaining entries keep their order and the new one
    comes last. *)
Theorem Cache_insert_full_evicts_oldest c key value (k : Z) :
  _max_size c = Some k -> 1 <= k -> len c = k ->
  key ∉ (cached c).*1 ->
  insert key value c = (Ok tt, with_cached c (tail (cached c) ++ [(key, value)])) /\
  len (with_cached c (tail (cached c) ++ [(key, value)])) = k.
Proof.
  intros Hmax Hk Hlen Hfresh. unfold len, cached in *.
  assert (Hk' : k = Z.of_nat (Z.to_nat k)) by lia.
  rewrite Hk' in Hmax.
  rewrite (insert_bounded (Z.to_nat k)) by exact Hmax.
  rewrite od_setitem_fresh by assumption. rewrite length_app. simpl.
  replace (length (_cached c) + 1 - Z.to_nat k)%nat with 1%nat by lia.
  destruct (_cached c) as [|kv d]; [simpl in Hlen; lia |].
  simpl. rewrite drop_0. split; [reflexivity |].
  rewrite length_app. simpl in *. lia.
Qed.

End cache_more.

Lemma Cache_insert_retrieve_witness :
  exists c',
    insert 2%nat 20%nat (@mkCache nat nat (Some 2) [(1, 10); (2, 5)]%nat 0 0)
    = (Ok tt, c') /\
    retrieve 2%nat c' = (Ok 20%nat, c').
Proof.
  destruct (Cache_insert_retrieve
              (@mkCache nat nat (Some 2) [(1, 10); (2, 5)]%nat 0 0) 2%nat 20%nat)
    as (c' & Hins & _ & Hget).
  - right. exists 2. split; [reflexivity |]. split; [lia | reflexivity].
  - exists c'. split; assumption.
Defined.

Lemma Cache_insert_negative_max_size_witness :
  insert 1%nat 10%nat (@mkCache nat nat (Some (-1)) [] 0 0)
  = (Raise KeyError, @mkCache nat nat (Some (-1)) [] 0 0).
Proof.
  exact (Cache_insert_negative_max_size
           (@mkCache nat nat (Some (-1)) [] 0 0) 1%nat 10%nat (-1)
           eq_refl eq_refl).
Defined.

Lemma Cache_insert_full_evicts_oldest_witness :
  insert 3%nat 30%nat (@mkCache nat nat (Some 2) [(1, 10); (2, 20)]%nat 0 0)
  = (Ok tt, @mkCache nat nat (Some 2) [(2, 20); (3, 30)]%nat 0 0).
Proof.
  refine (proj1 (Cache_insert_full_evicts_oldest
                   (@mkCache nat nat (Some 2) [(1, 10); (2, 20)]%nat 0 0)
                   3%nat 30%nat 2 eq_refl _ eq_refl _)).
  - lia.
  - exact (bool_decide_unpack (3%nat ∉ [1; 2]%nat) I).
Defined.

(** ** Events: what a notification touches *)

Section event_more.
Context {K V : Type}.
Implicit Types (st : Store K V) (cbs : list callback).

Lemma run_callbacks_untargeted cbs property_name change st (a : nat) :
  cache_clear_callback a ∉ cbs ->
  fold_left (fun s cb => call cb property_name change s) cbs st !! a = st !! a.
Proof.
  revert st. induction cbs as [|[t] cbs IH]; intros st Hnotin; simpl.
  - reflexivity.
  - rewrite IH by (intros Hin; apply Hnotin; by right).
    destruct change; simpl; [| reflexivity].
    apply lookup_alter_ne. intros ->. apply Hnotin. left.
Qed.

Lemma run_callbacks_stays_cleared cbs property_name st (a : nat)
  (o : option (Cache K V)) :
  st !! a = clear <$> o ->
  fold_left (fun s cb => call cb property_name true s) cbs st !! a = clear <$> o.
Proof.
  revert st. induction cbs as [|[t] cbs IH]; intros st Hst; simpl; [assumption |].
  apply IH. rewrite lookup_alter. case_decide; subst; [| assumption].
  rewrite Hst. destruct o; reflexivity.
Qed.

Lemma run_callbacks_targeted cbs property_name st (a : nat) :
  cache_clear_callback a ∈ cbs ->
  fold_left (fun s cb => call cb property_name true s) cbs st !! a
  = clear <$> st !! a.
Proof.
  revert st. induction cbs as [|[t] cbs IH]; intros st Hin; simpl.
  - inversion Hin.
  - destruct (decide (t = a)) as [->|Hne].
    + apply run_callbacks_stays_cleared. apply lookup_alter_eq.
    + rewrite IH by (inversion Hin; subst; [congruence | assumption]).
      rewrite lookup_alter_ne by assumption. reflexivity.
Qed.

(** X5. One [notify] increments the counter by one and keeps the callbacks.
    With [change] true it clears exactly the caches whose callback is
    registered; it never creates a cache, and with [change] false, or for an
    address no registered callback targets, the cache is as before. *)
Theorem Event_notify_effect (ev : Event) (property_name : string)
  (change : bool) st :
  callbacks (notify ev property_name change st).1 = callbacks ev /\
  notify_count (notify ev property_name change st).1 = notify_count ev + 1 /\
  forall a : nat,
    ((change = false \/ cache_clear_callback a ∉ callbacks ev) ->
     (notify ev property_name change st).2 !! a = st !! a) /\
    (change = true -> cache_clear_callback a ∈ callbacks ev ->
     (notify ev property_name change st).2 !! a = clear <$> st !! a).
Proof.
  split; [reflexivity |]. split; [reflexivity |].
  intros a. unfold notify. simpl. split.
  - intros [-> | Hnotin].
    + rewrite run_callbacks_no_change. reflexivity.
    + by apply run_callbacks_untargeted.
  - intros -> Hin. by apply run_callbacks_targeted.
Qed.

(** X6. A method under [watched_property] that completes notifies exactly
    once, also when nothing changed; the change flag compares the value of
    the property before the call with the argument of the call.  When they
    compare equal no cache is touched; when they differ every cache whose
    callback is registered is cleared.  When the method raises, nothing is
    notified. *)
Theorem watched_property_outcome {I X : Type}
  (event : I -> Event) (set_event : I -> Event -> I)
  (property_name : string) (getter : I -> X) (ne : X -> X -> bool)
  (func : X -> M I unit) (value : X) (instance : I) st :
  (forall i ev, event (set_event i ev) = ev) ->
  match func value instance with
  | (Raise e, instance') =>
      watched_property event set_event property_name getter ne func value
        (instance, st) = (Raise e, (instance', st))
  | (Ok _, instance') =>
      exists i' st',
        watched_property event set_event property_name getter ne func value
          (instance, st) = (Ok tt, (i', st')) /\
        notify_count (event i') = notify_count (event instance') + 1 /\
        (ne (getter instance) value = false -> st' = st) /\
        (ne (getter instance) value = true ->
         forall a : nat, cache_clear_callback a ∈ callbacks (event instance') ->
                         st' !! a = clear <$> st !! a)
  end.
Proof.
  intros Hlens. unfold watched_property.
  destruct (func value instance) as [[[]|e] instance']; [| reflexivity].
  eexists _, _. split; [reflexivity |]. rewrite Hlens. simpl.
  split; [reflexivity |]. split.
  - intros ->. apply run_callbacks_no_change.
  - intros -> a Hin. by apply run_callbacks_targeted.
Qed.

End event_more.

Lemma watched_property_outcome_witness :
  exists i' (st' : gmap nat (Cache nat nat)),
    watched_property Grid.changed Grid.with_changed "extent" Grid.extent
      (py_ne (float_item_eqb distinct_objects)) (fun v => modify (Grid.with_extent v))
      (Some [10; 10]%float) (grid_10_8, ∅) = (Ok tt, (i', st')) /\
    notify_count (Grid.changed i') = 1 /\
    st' = ∅.
Proof.
  pose proof (watched_property_outcome (K := nat) (V := nat)
                Grid.changed Grid.with_changed "extent" Grid.extent
                (py_ne (float_item_eqb distinct_objects)) (fun v => modify (Grid.with_extent v))
                (Some [10; 10]%float) grid_10_8 ∅ (fun _ _ => eq_refl)) as H.
  simpl in H. destruct H as (i' & st' & Hrun & Hcount & Hsame & _).
  exists i', st'. split; [exact Hrun |]. split; [exact Hcount |].
  apply Hsame. reflexivity.
Defined.

(** ** Memoized methods: keys, sharing and exceptions *)

Section memoization_more.
Context {F A V T : Type} `{EqDecision F} `{EqDecision A}.
Implicit Types (r : HasGridMixin.t T) (st : Store (F * A) V) (key : F * A).

(** X7. The function is part of the key: two memoized methods of one object
    called with the same arguments do not collide.  On a fresh cache that
    can hold two entries both run, each returns its own result, and the
    cache holds both entries in call order with miss counter 2. *)
Theorem cached_method_keys_by_function
  (f_id g_id : F) (f g : Grid.t -> A -> M T V) (args : A)
  r st (ms : option Z) vf vg attrs1 attrs2 :
  f_id <> g_id ->
  st !! HasGridMixin.cache r = Some (Cache_init ms) ->
  (ms = None \/ exists k, ms = Some k /\ 2 <= k) ->
  f (HasGridMixin.grid r) args (HasGridMixin.attrs r) = (Ok vf, attrs1) ->
  g (HasGridMixin.grid r) args attrs1 = (Ok vg, attrs2) ->
  exists r2 st2,
    cached_method HasGridMixin.cache g_id (HasGridMixin.method g) args
      (cached_method HasGridMixin.cache f_id (HasGridMixin.method f) args
         (r, st)).2
    = (Ok vg, (r2, st2)) /\
    HasGridMixin.attrs r2 = attrs2 /\
    st2 !! HasGridMixin.cache r
    = Some (@mkCache (F * A) V ms [((f_id, args), vf); ((g_id, args), vg)] 0 2).
Proof.
  intros Hne Hst Hms Hf Hg. destruct r as [gr c a].
  cbn [HasGridMixin.cache HasGridMixin._cache HasGridMixin.grid
       HasGridMixin._grid HasGridMixin.attrs] in *.
  rewrite (cached_method_miss f_id (HasGridMixin.method f) args
             (HasGridMixin.mk gr c a) (HasGridMixin.mk gr c attrs1) st ms vf);
    [| exact Hst
     | destruct Hms as [-> | (k & -> & Hk)]; [by left | right; exists k; split; [done | lia]]
     | unfold HasGridMixin.method; simpl; rewrite Hf; reflexivity].
  cbn [snd HasGridMixin.cache HasGridMixin._cache].
  unfold cached_method. cbn [HasGridMixin.cache HasGridMixin._cache].
  rewrite lookup_insert_eq. unfold cached. simpl.
  rewrite decide_False by congruence.
  unfold HasGridMixin.method. simpl. rewrite Hg.
  unfold insert, bind, modify, _check_size. simpl.
  rewrite decide_False by congruence.
  assert (Hloop : match ms with
                  | Some max_size =>
                      popitem_loop max_size
                        [((f_id, args), vf); ((g_id, args), vg)]
                      = (Ok tt, [((f_id, args), vf); ((g_id, args), vg)])
                  | None => True
                  end).
  { destruct Hms as [-> | (k & -> & Hk)]; [exact I |].
    rewrite popitem_loop_unfold. case Z.gtb_spec; simpl; [lia | reflexivity]. }
  destruct ms as [max_size|]; cbv beta iota; eexists _, _;
    [rewrite Hloop |]; simpl.
  all: split; [reflexivity |]; split; [reflexivity |].
  all: rewrite lookup_insert_eq; reflexivity.
Qed.

(** X8. The receiver is not part of the key: when two objects hold the same
    cache, a call on the second with the function and arguments of an
    earlier call on the first returns the result computed for the first,
    without running the method on the second. *)
Theorem cached_method_shared_cache_collides
  (func_id : F) (body : Grid.t -> A -> M T V) (args : A)
  r1 r2 st (ms : option Z) value attrs1 :
  HasGridMixin.cache r2 = HasGridMixin.cache r1 ->
  st !! HasGridMixin.cache r1 = Some (Cache_init ms) ->
  (ms = None \/ exists k, ms = Some k /\ 1 <= k) ->
  body (HasGridMixin.grid r1) args (HasGridMixin.attrs r1) = (Ok value, attrs1) ->
  exists st2,
    cached_method HasGridMixin.cache func_id (HasGridMixin.method body) args
      (r2, (cached_method HasGridMixin.cache func_id
              (HasGridMixin.method body) args (r1, st)).2.2)
    = (Ok value, (r2, st2)) /\
    hits <$> st2 !! HasGridMixin.cache r1 = Some 1.
Proof.
  intros Hshared Hst Hms Hbody.
  rewrite (cached_method_miss func_id (HasGridMixin.method body) args r1
             (HasGridMixin.mk (HasGridMixin.grid r1) (HasGridMixin.cache r1) attrs1)
             st ms value);
    [| exact Hst | exact Hms
     | unfold HasGridMixin.method; destruct r1; simpl in *; rewrite Hbody;
       reflexivity].
  cbn [snd].
  rewrite (cached_method_hit func_id (HasGridMixin.method body) args r2 _ ms
             value 0 1)
    by (rewrite Hshared; apply lookup_insert_eq).
  eexists. split; [reflexivity |].
  rewrite Hshared, lookup_insert_eq. reflexivity.
Qed.

(** X9. One call changes the counters as follows.  A call that finds its
    key adds one to the hit counter, and thereby to what the [misses]
    property reports, and keeps the entries; a call that completes without
    finding its key adds one to the miss counter and leaves what [misses]
    reports unchanged.  A call whose method raises stores nothing and counts
    nothing. *)
Theorem cached_method_counters
  (func_id : F) (func : A -> M (HasGridMixin.t T) V) (args : A) r st c
  out r' st' :
  st !! HasGridMixin.cache r = Some c ->
  cached_method HasGridMixin.cache func_id func args (r, st) = (out, (r', st')) ->
  if od_contains (cached c) (func_id, args) then
    r' = r /\
    exists c', st' !! HasGridMixin.cache r = Some c' /\
               cached c' = cached c /\
               (is_ok out = true -> hits c' = hits c + 1 /\
                                    misses c' = misses c + 1 /\
                                    _misses c' = _misses c)
  else
    match func args r with
    | (Raise e, r1) => out = Raise e /\ r' = r1 /\ st' = st
    | (Ok value, r1) =>
        r' = r1 /\
        exists c', st' !! HasGridMixin.cache r = Some c' /\
                   hits c' = hits c /\ misses c' = misses c /\
                   (is_ok out = true -> out = Ok value /\
                                        _misses c' = _misses c + 1)
    end.
Proof.
  intros Hst. unfold cached_method. rewrite Hst.
  destruct (od_contains (cached c) (func_id, args)) eqn:Hin.
  - unfold retrieve, cached. simpl.
    destruct (od_getitem (_cached c) (func_id, args)) as [value|e];
      intros [= <- <- <-]; (split; [reflexivity |]);
      eexists; (split; [apply lookup_insert_eq |]); split; try reflexivity;
      simpl; intros Hok; try discriminate Hok; repeat split.
  - destruct (func args r) as [[value|e] r1]; [| intros [= <- <- <-]; done].
    unfold insert, bind, modify, _check_size. simpl.
    destruct (_max_size c) as [max_size|]; simpl.
    + destruct (popitem_loop max_size _) as [[[]|e] d];
        intros [= <- <- <-]; (split; [reflexivity |]);
        eexists; (split; [apply lookup_insert_eq |]);
        (split; [reflexivity |]); (split; [reflexivity |]);
        simpl; intros Hok; try discriminate Hok; split; reflexivity.
    + intros [= <- <- <-]. split; [reflexivity |].
      eexists. split; [apply lookup_insert_eq |].
      split; [reflexivity |]. split; [reflexivity |].
      intros _. split; reflexivity.
Qed.

End memoization_more.

Lemma cached_method_keys_by_function_witness :
  exists r2 st2,
    cached_method HasGridMixin.cache 8%nat (HasGridMixin.method count_twice) 5%nat
      (cached_method HasGridMixin.cache 7%nat (HasGridMixin.method count_runs)
         5%nat (receiver_0, store_0)).2
    = (Ok 11%nat, (r2, st2)) /\
    HasGridMixin.attrs r2 = 2%nat /\
    st2 !! 0%nat
    = Some (@mkCache (nat * nat) nat None [((7, 5), 5); ((8, 5), 11)]%nat 0 2).
Proof.
  refine (cached_method_keys_by_function 7%nat 8%nat count_runs count_twice
            5%nat receiver_0 store_0 None 5%nat 11%nat 1%nat 2%nat
            _ eq_refl (or_introl eq_refl) eq_refl eq_refl).
  discriminate.
Defined.

Lemma cached_method_shared_cache_collides_witness :
  exists st2,
    cached_method HasGridMixin.cache 7%nat (HasGridMixin.method count_runs) 5%nat
      (receiver_1,
       (cached_method HasGridMixin.cache 7%nat (HasGridMixin.method count_runs)
          5%nat (receiver_0, store_0)).2.2)
    = (Ok 5%nat, (receiver_1, st2)) /\
    hits <$> st2 !! 0%nat = Some 1.
Proof.
  exact (cached_method_shared_cache_collides 7%nat count_runs 5%nat
           receiver_0 receiver_1 store_0 None 5%nat 1%nat
           eq_refl eq_refl (or_introl eq_refl) eq_refl).
Defined.

Lemma cached_method_counters_witness :
  exists c',
    (cached_method HasGridMixin.cache 7%nat (HasGridMixin.method count_runs)
       5%nat (receiver_0, store_0)).2.2 !! 0%nat = Some c' /\
    hits c' = 0 /\ misses c' = 0 /\ _misses c' = 1.
Proof.
  pose proof (cached_method_counters 7%nat (HasGridMixin.method count_runs)
                5%nat receiver_0 store_0 (Cache_init None)
                (Ok 5%nat)
                (HasGridMixin.mk (HasGridMixin.grid receiver_0) 0%nat 1%nat)
                (<[0%nat := @mkCache (nat * nat) nat None [((7, 5), 5)]%nat 0 1]>
                   store_0)
                eq_refl eq_refl) as H.
  simpl in H. destruct H as (_ & c' & Hc' & Hh & Hm & Hmiss).
  exists c'. split.
  - rewrite <- Hc'. reflexivity.
  - destruct (Hmiss eq_refl) as [_ Hmisses].
    split; [exact Hh |]. split; [exact Hm | exact Hmisses].
Defined.

(** ** Grid: the setters step by step *)

Lemma adjust_extent_eq n s g :
  Grid._adjust_extent n s g =
  match n, s with
  | Some ns, Some ds =>
      match extent_of (Grid._endpoint g) ns ds with
      | Ok e => (Ok tt, Grid.with_extent (Some e) g)
      | Raise x => (Raise x, g)
      end
  | _, _ => (Ok tt, g)
  end.
Proof.
  destruct n as [ns|], s as [ds|]; reflexivity.
Qed.

Lemma adjust_gpts_eq e s g :
  Grid._adjust_gpts e s g =
  match e, s with
  | Some ls, Some ds =>
      match gpts_of (Grid._endpoint g) ls ds with
      | Ok n => (Ok tt, Grid.with_gpts (Some n) g)
      | Raise x => (Raise x, g)
      end
  | _, _ => (Ok tt, g)
  end.
Proof.
  destruct e as [ls|], s as [ds|]; reflexivity.
Qed.

Lemma adjust_sampling_eq e n g :
  Grid._adjust_sampling e n g =
  match e, n with
  | Some ls, Some ns =>
      match sampling_of (Grid._endpoint g) ls ns with
      | Ok s => (Ok tt, Grid.with_sampling (Some s) g)
      | Raise x => (Raise x, g)
      end
  | _, _ => (Ok tt, g)
  end.
Proof.
  destruct e as [ls|], n as [ns|]; reflexivity.
Qed.

(** Unfold a setter run on a grid given field by field, down to the
    outcomes of validation and of the three derivations. *)
Ltac run_fset :=
  unfold fset, Grid.extent_fset, Grid.gpts_fset, Grid.sampling_fset,
    bind, gets, lift, raise, modify, ret, Grid.dimensions, Grid.gpts,
    Grid.extent, Grid.sampling;
  cbn [Grid._lock_extent Grid._lock_gpts Grid._lock_sampling Grid._dimensions
       Grid._extent Grid._gpts Grid._sampling Grid._endpoint Grid.changed];
  rewrite ?adjust_extent_eq, ?adjust_gpts_eq, ?adjust_sampling_eq.

Lemma zipM_length {A B C} (f : A -> B -> result C) xs ys zs :
  zipM f xs ys = Ok zs -> length zs = min (length xs) (length ys).
Proof.
  revert ys zs. induction xs as [|x xs IH]; intros [|y ys] zs; simpl;
    try (intros [= <-]; reflexivity).
  destruct (f x y); [| discriminate].
  destruct (zipM f xs ys) as [zs'|] eqn:Ez; [| discriminate].
  intros [= <-]. simpl. rewrite (IH ys zs' Ez). reflexivity.
Qed.

Lemma mapM_length {A B} (f : A -> result B) xs ys :
  mapM f xs = Ok ys -> length ys = length xs.
Proof.
  revert ys. induction xs as [|x xs IH]; intros ys; simpl.
  - intros [= <-]. reflexivity.
  - destruct (f x); [| discriminate].
    destruct (mapM f xs) as [ys'|]; [| discriminate].
    intros [= <-]. simpl. rewrite (IH ys' eq_refl). reflexivity.
Qed.

Lemma validate_shaped {A} dims value (dtype : num -> result A) v :
  Grid._validate dims value dtype = Ok v -> shaped (Z.to_nat dims) v.
Proof.
  destruct value as [|x|xs|r]; simpl.
  - intros [= <-] l [=].
  - destruct (dtype x); [| discriminate]. intros [= <-] l [= <-].
    apply repeat_length.
  - destruct (Z.eqb_spec (Z.of_nat (length xs)) dims) as [Hlen|]; simpl;
      [| discriminate].
    destruct (mapM dtype xs) as [ys|] eqn:Em; [| discriminate].
    intros [= <-] l [= <-]. rewrite (mapM_length _ _ _ Em). lia.
  - discriminate.
Qed.

Ltac grid_cases :=
  repeat first
    [ progress simplify_eq
    | progress
        cbn [Grid._lock_extent Grid._lock_gpts Grid._lock_sampling
             Grid._dimensions Grid._extent Grid._gpts Grid._sampling
             Grid._endpoint Grid.changed Grid.with_extent Grid.with_gpts
             Grid.with_sampling Grid.with_changed Grid.extent Grid.gpts
             Grid.sampling Grid.endpoint Grid.dimensions is_None orb negb
             fst snd] in *
    | match goal with
      | H : context [Grid._adjust_extent _ _ _] |- _ =>
          rewrite adjust_extent_eq in H
      | H : context [Grid._adjust_gpts _ _ _] |- _ =>
          rewrite adjust_gpts_eq in H
      | H : context [Grid._adjust_sampling _ _ _] |- _ =>
          rewrite adjust_sampling_eq in H
      | |- context [Grid._adjust_extent _ _ _] => rewrite adjust_extent_eq
      | |- context [Grid._adjust_gpts _ _ _] => rewrite adjust_gpts_eq
      | |- context [Grid._adjust_sampling _ _ _] => rewrite adjust_sampling_eq
      end
    | case_match
    | discriminate ].

Lemma extent_fset_consistent value g g1 :
  Grid.extent_fset value g = (Ok tt, g1) -> grid_consistent g1.
Proof.
  destruct g as [ev dims endpoint le lg lsm e n s]. run_fset.
  intros Hrun. grid_cases.
  all: unfold grid_consistent; simpl; intros e' n' He Hn; simplify_eq; eauto.
Qed.

Lemma sampling_fset_consistent value g g1 :
  Grid.sampling_fset value g = (Ok tt, g1) -> grid_consistent g1.
Proof.
  destruct g as [ev dims endpoint le lg lsm e n s]. run_fset.
  intros Hrun. grid_cases.
  all: unfold grid_consistent; simpl; intros e' n' He Hn; simplify_eq; eauto.
Qed.

Lemma init_consistent extent gpts sampling dims endpoint
  (lock_extent lock_gpts lock_sampling : bool) g :
  Grid.__init__ extent gpts sampling dims endpoint
    lock_extent lock_gpts lock_sampling = Ok g ->
  grid_consistent g.
Proof.
  unfold Grid.__init__. run_fset. intros Hrun. grid_cases.
  all: unfold grid_consistent; simpl; intros e' n' He Hn; simplify_eq; eauto.
Qed.

(** X10. After construction, and after every completed assignment to
    extent or to sampling, a grid is consistent: whenever extent and gpts are
    both defined, the stored sampling is the one derived from them,
    [extent / gpts], or [extent / (gpts - 1)] with the endpoint. *)
Theorem Grid_consistent_after_init_and_assignment {K V : Type} :
  (forall extent gpts sampling dims endpoint
          (lock_extent lock_gpts lock_sampling : bool) g,
      Grid.__init__ extent gpts sampling dims endpoint
        lock_extent lock_gpts lock_sampling = Ok g ->
      grid_consistent g) /\
  (forall name value g (st : Store K V) g' st',
      name <> Grid.Gpts ->
      Grid.setattr name value (g, st) = (Ok tt, (g', st')) ->
      grid_consistent g').
Proof.
  split; [exact init_consistent |].
  intros name value g st g' st' Hname Hset.
  apply setattr_outcome in Hset as (g1 & Hf & _ & -> & _).
  assert (Hg1 : grid_consistent g1).
  { destruct name; [| congruence |].
    - exact (extent_fset_consistent _ _ _ Hf).
    - exact (sampling_fset_consistent _ _ _ Hf). }
  destruct g1. exact Hg1.
Qed.

(** The assignment to gpts is left out of X10 for a reason: on
    [Grid(extent=10, lock_sampling=True)], [gpts = 5] leaves extent and
    gpts defined and the sampling undefined. *)
Example Grid_gpts_assignment_not_consistent :
  Grid.__init__ (PyScalar (PyInt 10)) PyNone PyNone 2 false false false true
  = Ok (Grid.mk Event_init 2 false false false true
          (Some [10; 10]%float) None None) /\
  Grid.set_gpts (PyScalar (PyInt 5))
    (Grid.mk Event_init 2 false false false true (Some [10; 10]%float) None None,
     (∅ : gmap nat (Cache nat nat)))
  = (Ok tt,
     (Grid.mk (mkEvent [] 1) 2 false false false true
        (Some [10; 10]%float) (Some [5; 5]) None,
      (∅ : gmap nat (Cache nat nat)))).
Proof. split; reflexivity. Qed.

Section grid_more.
Context {K V : Type} (same_object : nat -> bool).
Implicit Types (g : Grid.t) (st : Store K V).

Lemma gpts_fset_ok value g g1 :
  Grid.gpts_fset value g = (Ok tt, g1) ->
  exists v, Grid._validate (Grid.dimensions g) value to_int = Ok v /\
            Grid.gpts g1 = v.
Proof.
  destruct g as [ev dims endpoint le lg lsm e n s]. run_fset.
  intros Hrun. grid_cases; eauto.
Qed.

Lemma set_extent_stores value g st g' st' :
  Grid.set_extent value (g, st) = (Ok tt, (g', st')) ->
  Grid._validate (Grid.dimensions g) value to_float = Ok (Grid.extent g').
Proof.
  intros Hset.
  apply (setattr_outcome Grid.Extent) in Hset as (g1 & Hf & _ & -> & _).
  apply extent_fset_ok in Hf as (v & Hv & <-). destruct g1. exact Hv.
Qed.

Lemma set_gpts_stores value g st g' st' :
  Grid.set_gpts value (g, st) = (Ok tt, (g', st')) ->
  Grid._validate (Grid.dimensions g) value to_int = Ok (Grid.gpts g').
Proof.
  intros Hset.
  apply (setattr_outcome Grid.Gpts) in Hset as (g1 & Hf & _ & -> & _).
  apply gpts_fset_ok in Hf as (v & Hv & <-). destruct g1. exact Hv.
Qed.

(** X11. What a completed assignment stores.  After [grid.extent = value]
    the extent is the validated value, and after [grid.gpts = value] the
    gpts is the validated value: a scalar repeated for every dimension, a
    sequence converted element by element, or [None]. *)
Theorem Grid_assignment_stores_validated value g st g' st' :
  (Grid.set_extent value (g, st) = (Ok tt, (g', st')) ->
   Grid._validate (Grid.dimensions g) value to_float = Ok (Grid.extent g')) /\
  (Grid.set_gpts value (g, st) = (Ok tt, (g', st')) ->
   Grid._validate (Grid.dimensions g) value to_int = Ok (Grid.gpts g')).
Proof.
  split; [apply set_extent_stores | apply set_gpts_stores].
Qed.

(** X12. The sampling setter never stores its argument: it only derives.
    On a grid with neither extent nor gpts, [grid.sampling = value] with a
    valid value completes and notifies, and extent, gpts and sampling are
    all what they were. *)
Theorem Grid_sampling_assignment_on_bare_grid value g st v :
  Grid._lock_sampling g = false ->
  Grid.extent g = None -> Grid.gpts g = None ->
  Grid._validate (Grid.dimensions g) value to_float = Ok v ->
  Grid.set_sampling value (g, st)
  = (Ok tt,
     (Grid.with_changed g (notify (Grid.changed g) "sampling" true st).1,
      (notify (Grid.changed g) "sampling" true st).2)).
Proof.
  destruct g as [ev dims endpoint le lg lsm e n s]. simpl.
  intros -> -> -> Hval.
  unfold Grid.set_sampling, watched_method. run_fset. rewrite Hval.
  destruct lg, v; reflexivity.
Qed.

Lemma shaped_zipM {A B C} (f : A -> B -> result C) d xs ys zs :
  length xs = d -> length ys = d -> zipM f xs ys = Ok zs ->
  length zs = d.
Proof.
  intros Hx Hy Hz. rewrite (zipM_length _ _ _ _ Hz). lia.
Qed.

Lemma extent_of_shaped endpoint d ns ds es :
  length ns = d -> length ds = d -> extent_of endpoint ns ds = Ok es ->
  length es = d.
Proof.
  unfold extent_of. intros Hn Hd Hes.
  destruct endpoint; exact (shaped_zipM _ _ _ _ _ Hn Hd Hes).
Qed.

Lemma gpts_of_shaped endpoint d ls ds ns :
  length ls = d -> length ds = d -> gpts_of endpoint ls ds = Ok ns ->
  length ns = d.
Proof.
  unfold gpts_of. intros Hl Hd Hns.
  destruct endpoint; exact (shaped_zipM _ _ _ _ _ Hl Hd Hns).
Qed.

Lemma sampling_of_shaped endpoint d ls ns ss :
  length ls = d -> length ns = d -> sampling_of endpoint ls ns = Ok ss ->
  length ss = d.
Proof.
  unfold sampling_of. intros Hl Hn Hss.
  destruct endpoint; exact (shaped_zipM _ _ _ _ _ Hl Hn Hss).
Qed.

Ltac learn_lengths :=
  repeat match goal with
         | H : forall l, Some ?x = Some l -> length l = _ |- _ =>
             specialize (H x eq_refl)
         | H : extent_of _ ?ns ?ds = Ok ?es,
           Hn : length ?ns = ?d, Hd : length ?ds = ?d |- _ =>
             lazymatch goal with
             | _ : length es = d |- _ => fail
             | _ => pose proof (extent_of_shaped _ _ _ _ _ Hn Hd H)
             end
         | H : gpts_of _ ?ls ?ds = Ok ?ns,
           Hl : length ?ls = ?d, Hd : length ?ds = ?d |- _ =>
             lazymatch goal with
             | _ : length ns = d |- _ => fail
             | _ => pose proof (gpts_of_shaped _ _ _ _ _ Hl Hd H)
             end
         | H : sampling_of _ ?ls ?ns = Ok ?ss,
           Hl : length ?ls = ?d, Hn : length ?ns = ?d |- _ =>
             lazymatch goal with
             | _ : length ss = d |- _ => fail
             | _ => pose proof (sampling_of_shaped _ _ _ _ _ Hl Hn H)
             end
         end.

Ltac shape_solver :=
  unfold grid_shape, shaped in *; simpl in *;
  repeat match goal with
         | H : _ /\ _ |- _ => destruct H
         | H : Grid._validate _ _ _ = Ok _ |- _ =>
             apply validate_shaped in H; unfold shaped in H
         end;
  repeat split; intros; simplify_eq; learn_lengths; eauto.

Lemma fset_shape name value g r g1 :
  grid_shape g -> fset name value g = (r, g1) -> grid_shape g1.
Proof.
  destruct g as [ev dims endpoint le lg lsm e n s].
  intros Hshape Hrun. destruct name; revert Hrun; run_fset; intros Hrun;
    grid_cases; shape_solver.
Qed.

(** X13. Shape invariant: the constructor builds a grid in which every
    defined descriptor has as many entries as the grid has dimensions, and
    every assignment, completed or failed, keeps it so. *)
Theorem Grid_shape_invariant :
  (forall extent gpts sampling dims endpoint
          (lock_extent lock_gpts lock_sampling : bool) g,
      Grid.__init__ extent gpts sampling dims endpoint
        lock_extent lock_gpts lock_sampling = Ok g ->
      grid_shape g) /\
  (forall name value g st r g' st',
      grid_shape g ->
      Grid.setattr name value (g, st) = (r, (g', st')) ->
      grid_shape g').
Proof.
  split.
  - intros extent gpts sampling dims endpoint le lg lsm g.
    unfold Grid.__init__. run_fset. intros Hrun. grid_cases; shape_solver.
  - intros name value g st r g' st' Hshape Hset.
    apply setattr_outcome in Hset. destruct r as [[]|e].
    + destruct Hset as (g1 & Hf & _ & -> & _).
      pose proof (fset_shape _ _ _ _ _ Hshape Hf) as Hg1.
      destruct g1. exact Hg1.
    + destruct Hset as (Hf & _). exact (fset_shape _ _ _ _ _ Hshape Hf).
Qed.

(** X14. [copy] of a grid with defined extent and gpts that is well shaped
    and consistent, with at most one lock, is the same grid with a new
    event: the same descriptors, shape and locks, no callbacks and a
    notification counter of 0. *)
Theorem Grid_copy_fresh_event g e n :
  grid_shape g -> grid_consistent g ->
  0 <= Grid.dimensions g ->
  Z.b2z (Grid._lock_extent g) + Z.b2z (Grid._lock_gpts g)
  + Z.b2z (Grid._lock_sampling g) <= 1 ->
  Grid.extent g = Some e -> Grid.gpts g = Some n ->
  Grid.copy g = Ok (Grid.with_changed g Event_init).
Proof.
  intros (He & Hn & Hs) Hcons Hdims Hlocks Hext Hgpts.
  destruct (Hcons e n Hext Hgpts) as (s & Hsam & Hderive).
  specialize (He e Hext). specialize (Hn n Hgpts). specialize (Hs s Hsam).
  unfold Grid.copy, Grid.__copy__, Grid.__init__.
  case Z.gtb_spec; [lia | intros _].
  rewrite Hext, Hgpts, Hsam.
  rewrite !validate_floats, validate_ints by lia.
  run_fset. cbn [is_None Grid._extent Grid._gpts Grid._sampling].
  rewrite adjust_sampling_eq. cbn [Grid._endpoint]. rewrite Hderive.
  destruct g. simpl in *. subst. reflexivity.
Qed.

Lemma tuple_eqb_Z_eq (i : nat) (xs ys : list Z) :
  tuple_eqb int_item_eqb i xs ys = true -> xs = ys.
Proof.
  revert i ys. induction xs as [|x xs IH]; intros i [|y ys]; simpl;
    try discriminate; [reflexivity |].
  intros [Hxy Hrest]%andb_true_iff. apply Z.eqb_eq in Hxy.
  rewrite Hxy, (IH _ ys Hrest). reflexivity.
Qed.

Lemma validate_ints_inv dims ns v :
  Grid._validate dims (Grid.py_of_ints (Some ns)) to_int = Ok v ->
  v = Some ns.
Proof.
  simpl. destruct (negb _); [discriminate |].
  rewrite mapM_to_int_ints. congruence.
Qed.

Lemma bind_ok_inv {S A B} (m : M S A) (k : A -> M S B) s b s' :
  bind m k s = (Ok b, s') ->
  exists a s1, m s = (Ok a, s1) /\ k a s1 = (Ok b, s').
Proof.
  unfold bind. destruct (m s) as [[a|e] s1]; [eauto | discriminate].
Qed.


Lemma set_gpts_keeps_extent value g st g' st' :
  Grid.set_gpts value (g, st) = (Ok tt, (g', st')) ->
  is_None (Grid.extent g) = false -> is_None (Grid.extent g') = false.
Proof.
  intros Hset.
  apply (setattr_outcome Grid.Gpts) in Hset as (g1 & Hf & _ & -> & _).
  revert Hf. destruct g as [ev dims endpoint le lg lsm e n s].
  cbn [fset]. run_fset. intros Hrun Hdef.
  grid_cases; first [reflexivity | assumption].
Qed.

(** X16. A [match] that completes leaves both grids with the same, defined
    gpts and with defined extents, whatever the locks and whichever side
    adopted: [check_is_defined] then passes on both. *)
Theorem Grid_match_gpts_agree (check_match : bool) A B st A' B' st' :
  Grid.match_ same_object check_match (A, B, st) = (Ok tt, (A', B', st')) ->
  (exists ns, Grid.gpts A' = Some ns /\ Grid.gpts B' = Some ns) /\
  Grid.check_is_defined A' = Ok tt /\ Grid.check_is_defined B' = Ok tt.
Proof.
  unfold Grid.match_. intros Hrun.
  apply bind_ok_inv in Hrun as ([] & [[A1 B1] st1] & _ & Hrun).
  apply bind_ok_inv in Hrun as ([] & [[A2 B2] st2] & Hext & Hrun).
  assert (Hdef : is_None (Grid.extent A2) = false /\
                 is_None (Grid.extent B2) = false).
  { unfold bind, gets, raise, ret, Grid.self_, Grid.other_ in Hext.
    cbn beta iota in Hext.
    destruct (Grid.extent A1) as [ea|] eqn:HA1,
             (Grid.extent B1) as [eb|] eqn:HB1;
      cbn [is_None andb py_ne] in Hext; [| | | discriminate].
    - destruct (negb (tuple_eqb (float_item_eqb same_object) 0 ea eb)).
      + unfold Grid.on_self in Hext.
        destruct (Grid.set_extent _ (A1, st1)) as [r1 [A3 st3]] eqn:Hset.
        injection Hext as -> <- <- _.
        apply set_extent_stores, validate_floats_inv in Hset.
        rewrite Hset, HB1. split; reflexivity.
      + injection Hext as <- <- _. rewrite HA1, HB1. split; reflexivity.
    - unfold Grid.on_other in Hext.
      destruct (Grid.set_extent _ (B1, st1)) as [r1 [B3 st3]] eqn:Hset.
      injection Hext as -> <- <- _.
      apply set_extent_stores, validate_floats_inv in Hset.
      rewrite Hset, HA1. split; reflexivity.
    - unfold Grid.on_self in Hext.
      destruct (Grid.set_extent _ (A1, st1)) as [r1 [A3 st3]] eqn:Hset.
      injection Hext as -> <- <- _.
      apply set_extent_stores, validate_floats_inv in Hset.
      rewrite Hset, HB1. split; reflexivity. }
  destruct Hdef as [HdefA HdefB].
  unfold bind, gets, raise, ret, Grid.self_, Grid.other_ in Hrun.
  cbn beta iota in Hrun. unfold Grid.check_is_defined.
  destruct (Grid.gpts A2) as [na|] eqn:HA2, (Grid.gpts B2) as [nb|] eqn:HB2;
    cbn [is_None andb py_ne] in Hrun.
  - destruct (tuple_eqb int_item_eqb 0 na nb) eqn:Heq; cbn [negb] in Hrun.
    + injection Hrun as <- <- _. apply tuple_eqb_Z_eq in Heq. subst nb.
      rewrite HdefA, HdefB, HA2, HB2. eauto.
    + unfold Grid.on_self in Hrun.
      destruct (Grid.set_gpts _ (A2, st2)) as [r1 [A3 st3]] eqn:Hset.
      injection Hrun as -> <- <- _.
      pose proof (set_gpts_keeps_extent _ _ _ _ _ Hset HdefA) as HdefA3.
      apply set_gpts_stores, validate_ints_inv in Hset.
      rewrite HdefA3, HdefB, Hset, HB2. eauto.
  - unfold Grid.on_other in Hrun.
    destruct (Grid.set_gpts _ (B2, st2)) as [r1 [B3 st3]] eqn:Hset.
    injection Hrun as -> <- <- _.
    pose proof (set_gpts_keeps_extent _ _ _ _ _ Hset HdefB) as HdefB3.
    apply set_gpts_stores, validate_ints_inv in Hset.
    rewrite HdefA, HdefB3, Hset, HA2. eauto.
  - unfold Grid.on_self in Hrun.
    destruct (Grid.set_gpts _ (A2, st2)) as [r1 [A3 st3]] eqn:Hset.
    injection Hrun as -> <- <- _.
    pose proof (set_gpts_keeps_extent _ _ _ _ _ Hset HdefA) as HdefA3.
    apply set_gpts_stores, validate_ints_inv in Hset.
    rewrite HdefA3, HdefB, Hset, HB2. eauto.
  - discriminate.
Qed.

End grid_more.

Lemma Grid_sampling_assignment_on_bare_grid_witness :
  Grid.set_sampling (PyScalar (PyFloat 0.5))
    (grid_empty, (∅ : gmap nat (Cache nat nat)))
  = (Ok tt,
     (Grid.mk (mkEvent [] 1) 2 false false false false None None None, ∅)).
Proof.
  exact (Grid_sampling_assignment_on_bare_grid (K := nat) (V := nat)
           (PyScalar (PyFloat 0.5)) grid_empty ∅ (Some [0.5; 0.5]%float)
           eq_refl eq_refl eq_refl eq_refl).
Defined.

Lemma grid_10_8_locked_shape : grid_shape grid_10_8_locked.
Proof. repeat split; intros l [= <-]; reflexivity. Qed.

Lemma grid_10_8_locked_consistent : grid_consistent grid_10_8_locked.
Proof. intros e n [= <-] [= <-]. eexists. split; reflexivity. Qed.

Lemma Grid_copy_fresh_event_witness :
  Grid.copy grid_10_8_locked = Ok grid_10_8_locked.
Proof.
  exact (Grid_copy_fresh_event grid_10_8_locked [10; 10]%float [8; 8]
           grid_10_8_locked_shape grid_10_8_locked_consistent
           ltac:(simpl; lia) ltac:(simpl; lia) eq_refl eq_refl).
Defined.

Lemma Grid_match_gpts_agree_witness :
  (Grid.match_ distinct_objects false
     (grid_10_8, grid_20_16, (∅ : gmap nat (Cache nat nat)))).1
  = Ok tt /\
  ((exists ns,
       Grid.gpts (Grid.match_ distinct_objects false (grid_10_8, grid_20_16,
                    (∅ : gmap nat (Cache nat nat)))).2.1.1 = Some ns /\
       Grid.gpts grid_20_16 = Some ns) /\
   Grid.check_is_defined
     (Grid.match_ distinct_objects false (grid_10_8, grid_20_16,
        (∅ : gmap nat (Cache nat nat)))).2.1.1 = Ok tt /\
   Grid.check_is_defined grid_20_16 = Ok tt).
Proof.
  split; [reflexivity |].
  exact (Grid_match_gpts_agree (K := nat) (V := nat) distinct_objects false
           grid_10_8 grid_20_16 ∅ _ _ _ eq_refl).
Defined.

(** [Grid(extent=x, gpts=4)] built twice from one NaN object [x]: the two
    extents hold that object, compare equal, and the check passes.  Built
    from two NaN objects, the extents differ and the check raises. *)
Example Grid_check_match_nan :
  Grid.__init__ (PyScalar (PyFloat nan)) (PyScalar (PyInt 4)) PyNone 2
    false false false false = Ok grid_nan_4 /\
  Grid.check_match shared_objects grid_nan_4 grid_nan_4 = Ok tt /\
  Grid.check_match distinct_objects grid_nan_4 grid_nan_4
  = Raise (RuntimeError "Inconsistent grid extent ({} != {})"
             [PySeq [PyFloat nan; PyFloat nan];
              PySeq [PyFloat nan; PyFloat nan]]).
Proof. repeat split. Qed.

(** ** The accelerator: assignment, copy and derived quantities *)

Section accelerator_more.
Context {K V : Type}.
Implicit Types (acc : Accelerator.t) (st : Store K V).

Lemma set_energy_eq value acc st :
  Accelerator.set_energy value (acc, st) =
  if Accelerator._lock_energy acc
  then (Raise (RuntimeError "Energy cannot be modified" []), (acc, st))
  else match Accelerator.float_or_None value with
       | Raise e => (Raise e, (acc, st))
       | Ok v =>
           (Ok tt,
            (Accelerator.mk
               (notify (Accelerator.changed acc) "energy" true st).1 v false,
             (notify (Accelerator.changed acc) "energy" true st).2))
       end.
Proof.
  destruct acc as [ev e []];
    unfold Accelerator.set_energy, watched_method, Accelerator.energy_fset,
      bind, gets, lift, raise, modify; cbn; [reflexivity |].
  destruct (Accelerator.float_or_None value); reflexivity.
Qed.

Lemma float_or_None_raise value e :
  Accelerator.float_or_None value = Raise e -> arith_error e.
Proof.
  destruct value as [x|]; simpl; [| discriminate].
  destruct (to_float x) eqn:Ex; [discriminate |].
  intros [= <-]. exact (to_float_raise _ _ Ex).
Qed.

(** X17. Assigning the energy.  On a locked accelerator the assignment
    raises "Energy cannot be modified" and changes nothing.  On an unlocked
    one, a value [float] cannot convert raises the arithmetic error and
    changes nothing; any other value is stored as a float (or [None]), the
    event counts one more notification, and every cache whose callback is
    registered is cleared, also when the value is the one already stored;
    the other caches are as before. *)
Theorem Accelerator_energy_assignment value acc st :
  (Accelerator._lock_energy acc = true ->
   Accelerator.set_energy value (acc, st)
   = (Raise (RuntimeError "Energy cannot be modified" []), (acc, st))) /\
  (Accelerator._lock_energy acc = false ->
   match Accelerator.float_or_None value with
   | Raise e =>
       Accelerator.set_energy value (acc, st) = (Raise e, (acc, st)) /\
       arith_error e
   | Ok v =>
       exists acc' st',
         Accelerator.set_energy value (acc, st) = (Ok tt, (acc', st')) /\
         Accelerator.energy acc' = v /\
         Accelerator._lock_energy acc' = false /\
         callbacks (Accelerator.changed acc')
         = callbacks (Accelerator.changed acc) /\
         notify_count (Accelerator.changed acc')
         = notify_count (Accelerator.changed acc) + 1 /\
         forall a : nat,
           (cache_clear_callback a ∈ callbacks (Accelerator.changed acc) ->
            st' !! a = clear <$> st !! a) /\
           (cache_clear_callback a ∉ callbacks (Accelerator.changed acc) ->
            st' !! a = st !! a)
   end).
Proof.
  split; intros Hlock; rewrite set_energy_eq, Hlock; [reflexivity |].
  destruct (Accelerator.float_or_None value) as [v|e] eqn:Hv.
  - eexists _, _. split; [reflexivity |].
    repeat (split; [reflexivity |]).
    intros a. unfold notify. simpl. split; intros Hin.
    + by apply run_callbacks_targeted.
    + by apply run_callbacks_untargeted.
  - split; [reflexivity |]. exact (float_or_None_raise _ _ Hv).
Qed.

(** X18. [copy] of an accelerator never fails and passes on the energy
    only: the copy is unlocked and its event is new.  So an energy can be
    assigned to the copy of a locked accelerator, and that assignment
    reaches no cache. *)
Theorem Accelerator_copy_drops_lock acc :
  Accelerator.copy acc
  = Ok (Accelerator.mk Event_init (Accelerator.energy acc) false) /\
  forall value v st acc',
    Accelerator.float_or_None value = Ok v ->
    Accelerator.copy acc = Ok acc' ->
    Accelerator.set_energy value (acc', st)
    = (Ok tt, (Accelerator.mk (mkEvent [] 1) v false, st)).
Proof.
  assert (Hcopy : Accelerator.copy acc
                  = Ok (Accelerator.mk Event_init (Accelerator.energy acc) false)).
  { destruct acc as [ev [x|] l]; reflexivity. }
  split; [exact Hcopy |].
  intros value v st acc' Hv. rewrite Hcopy. intros [= <-].
  rewrite set_energy_eq. cbn [Accelerator._lock_energy]. rewrite Hv.
  reflexivity.
Qed.

Section derived.
Variables energy2wavelength energy2sigma : option float -> result float.

(** X19. [wavelength] and [sigma] raise "Energy is not defined" on an
    accelerator without energy, before any conversion is attempted.  After
    a completed [match] both accelerators have them defined by the same
    energy, so each of the two quantities is the same on both sides. *)
Theorem Accelerator_wavelength_sigma_after_match :
  (forall acc,
      Accelerator.energy acc = None ->
      Accelerator.wavelength energy2wavelength acc
      = Raise (RuntimeError "Energy is not defined" []) /\
      Accelerator.sigma energy2sigma acc
      = Raise (RuntimeError "Energy is not defined" [])) /\
  (forall (check_match : bool) A B st A' B' st',
      Accelerator.match_ check_match (A, B, st) = (Ok tt, (A', B', st')) ->
      exists x,
        Accelerator.wavelength energy2wavelength A' = energy2wavelength (Some x) /\
        Accelerator.wavelength energy2wavelength B' = energy2wavelength (Some x) /\
        Accelerator.sigma energy2sigma A' = energy2sigma (Some x) /\
        Accelerator.sigma energy2sigma B' = energy2sigma (Some x)).
Proof.
  split.
  - intros acc Hnone.
    unfold Accelerator.wavelength, Accelerator.sigma,
      Accelerator.check_is_defined.
    rewrite Hnone. split; reflexivity.
  - intros check_match A B st A' B' st' Hok.
    apply match_ok_agree in Hok as (x & HA' & HB'). exists x.
    unfold Accelerator.wavelength, Accelerator.sigma,
      Accelerator.check_is_defined.
    rewrite HA', HB'. repeat split; reflexivity.
Qed.

End derived.

End accelerator_more.

(** ** Writing a descriptor back *)

Section grid_write_back.
Context {K V : Type}.
Implicit Types (g : Grid.t) (st : Store K V).

Lemma fset_write_back name g e n :
  name <> Grid.Sampling ->
  Grid.locked name g = false -> Grid._lock_sampling g = false ->
  grid_shape g -> grid_consistent g -> 0 <= Grid.dimensions g ->
  Grid.extent g = Some e -> Grid.gpts g = Some n ->
  fset name (Grid.getattr name g) g = (Ok tt, g).
Proof.
  intros Hname Hlock Hls (He & Hn & Hs) Hcons Hdims Hext Hgpts.
  destruct (Hcons e n Hext Hgpts) as (s & Hsam & Hderive).
  specialize (He e Hext). specialize (Hn n Hgpts).
  destruct name; [| | congruence]; cbn [fset Grid.getattr Grid.locked] in *.
  - unfold Grid.extent_fset, bind, gets, lift, raise, modify.
    rewrite Hlock, Hext, validate_floats, Hls, Hgpts by lia.
    cbn [orb is_None negb]. rewrite Hgpts, adjust_sampling_eq.
    fold (Grid.endpoint g). rewrite Hderive.
    destruct g. simpl in *. subst. reflexivity.
  - unfold Grid.gpts_fset, bind, gets, lift, raise, modify.
    rewrite Hlock, Hgpts, validate_ints, Hls, Hext by lia.
    cbn [is_None negb]. rewrite Hext, adjust_sampling_eq.
    fold (Grid.endpoint g). rewrite Hderive.
    destruct g. simpl in *. subst. reflexivity.
Qed.

(** X20. Writing a descriptor back.  On a well-shaped, consistent grid with
    extent and gpts defined and the sampling not locked,
    [grid.extent = grid.extent] and [grid.gpts = grid.gpts] complete and
    leave extent, gpts and sampling exactly as they were; the event is
    notified all the same, with [change=True]. *)
Theorem Grid_write_back name g st e n :
  name <> Grid.Sampling ->
  Grid.locked name g = false -> Grid._lock_sampling g = false ->
  grid_shape g -> grid_consistent g -> 0 <= Grid.dimensions g ->
  Grid.extent g = Some e -> Grid.gpts g = Some n ->
  Grid.setattr name (Grid.getattr name g) (g, st)
  = (Ok tt,
     (Grid.with_changed g
        (notify (Grid.changed g) (property_name name) true st).1,
      (notify (Grid.changed g) (property_name name) true st).2)).
Proof.
  intros Hname Hlock Hls Hshape Hcons Hdims Hext Hgpts.
  rewrite setattr_unfold. unfold watched_method.
  rewrite (fset_write_back name g e n) by assumption.
  reflexivity.
Qed.

End grid_write_back.

Lemma grid_10_8_shape : grid_shape grid_10_8.
Proof. repeat split; intros l [= <-]; reflexivity. Qed.

Lemma grid_10_8_consistent : grid_consistent grid_10_8.
Proof. intros e n [= <-] [= <-]. eexists. split; reflexivity. Qed.

Lemma Grid_write_back_witness :
  Grid.set_gpts (PySeq [PyInt 8; PyInt 8])
    (Grid.with_changed grid_10_8 (register Event_init [cache_clear_callback 0]),
     <[0%nat := mkCache (Some 2) [(7%nat, 7%nat)] 0 1]> ∅)
  = (Ok tt,
     (Grid.with_changed grid_10_8 (mkEvent [cache_clear_callback 0] 1),
      <[0%nat := Cache_init (Some 2)]> ∅)).
Proof.
  pose proof (Grid_write_back (K := nat) (V := nat) Grid.Gpts
           (Grid.with_changed grid_10_8
              (register Event_init [cache_clear_callback 0]))
           (<[0%nat := mkCache (Some 2) [(7%nat, 7%nat)] 0 1]> ∅)
           [10; 10]%float [8; 8]
           ltac:(discriminate) eq_refl eq_refl
           grid_10_8_shape grid_10_8_consistent
           ltac:(simpl; lia) eq_refl eq_refl) as H.
  exact H.
Defined.

(** ** Shape and locks are fixed at construction *)

Section grid_fixed_facts.
Context {K V : Type} (same_object : nat -> bool).
Implicit Types (g A B : Grid.t) (st : Store K V).
Local Abbreviation pair_fixed := (@pair_fixed K V).

Lemma grid_fixed_refl g : grid_fixed g g.
Proof. repeat split. Qed.

Lemma grid_fixed_trans g1 g2 g3 :
  grid_fixed g1 g2 -> grid_fixed g2 g3 -> grid_fixed g1 g3.
Proof.
  unfold grid_fixed. intros (?&?&?&?&?) (?&?&?&?&?). repeat split; congruence.
Qed.

Lemma pair_fixed_refl w : pair_fixed w w.
Proof. split; apply grid_fixed_refl. Qed.

Lemma pair_fixed_trans w1 w2 w3 :
  pair_fixed w1 w2 -> pair_fixed w2 w3 -> pair_fixed w1 w3.
Proof. intros [? ?] [? ?]. split; eapply grid_fixed_trans; eauto. Qed.

Lemma setattr_fixed name value g st :
  grid_fixed g (Grid.setattr name value (g, st)).2.1.
Proof.
  destruct (Grid.setattr name value (g, st)) as [r [g' st']] eqn:Hset.
  apply setattr_outcome in Hset. simpl.
  destruct r as [[]|e].
  - destruct Hset as (g1 & _ & (_ & Hd & He & Hle & Hlg & Hls) & -> & _).
    destruct g1. repeat split; assumption.
  - destruct Hset as (_ & _ & _ & (_ & Hd & He & Hle & Hlg & Hls)).
    repeat split; assumption.
Qed.

Lemma on_self_fixed name value :
  keeps pair_fixed (fun _ => True) (Grid.on_self (K := K) (V := V) (Grid.setattr name value)).
Proof.
  intros [[A B] st]. unfold Grid.on_self.
  pose proof (setattr_fixed name value A st) as HA.
  destruct (Grid.setattr name value (A, st)) as [r [A' st']].
  split; [| done]. split; [exact HA | apply grid_fixed_refl].
Qed.

Lemma on_other_fixed name value :
  keeps pair_fixed (fun _ => True) (Grid.on_other (K := K) (V := V) (Grid.setattr name value)).
Proof.
  intros [[A B] st]. unfold Grid.on_other.
  pose proof (setattr_fixed name value B st) as HB.
  destruct (Grid.setattr name value (B, st)) as [r [B' st']].
  split; [| done]. split; [apply grid_fixed_refl | exact HB].
Qed.

Lemma match_fixed (check_match : bool) :
  keeps pair_fixed (fun _ => True)
    (Grid.match_ (K := K) (V := V) same_object check_match).
Proof.
  unfold Grid.match_.
  repeat first
    [ apply (keeps_bind _ pair_fixed_trans)
    | apply (keeps_gets _ pair_fixed_refl)
    | apply (keeps_ret _ pair_fixed_refl)
    | apply (keeps_raise _ pair_fixed_refl); exact I
    | apply (keeps_lift _ pair_fixed_refl); intros; exact I
    | apply (on_self_fixed Grid.Extent) | apply (on_other_fixed Grid.Extent)
    | apply (on_self_fixed Grid.Gpts) | apply (on_other_fixed Grid.Gpts)
    | intros ?
    | case_match ].
Qed.

(** X21. Shape and locks are fixed at construction.  The constructor
    refuses more than one lock, so a grid it builds has at most one, with
    the dimensions, endpoint and locks it was given; no assignment and no
    [match], completed or failed, changes the dimensions, the endpoint or
    a lock of a grid. *)
Theorem Grid_shape_and_locks_fixed :
  (forall extent gpts sampling dims endpoint
          (lock_extent lock_gpts lock_sampling : bool) g,
      Grid.__init__ extent gpts sampling dims endpoint
        lock_extent lock_gpts lock_sampling = Ok g ->
      lock_count g <= 1 /\
      Grid.dimensions g = dims /\ Grid.endpoint g = endpoint /\
      Grid._lock_extent g = lock_extent /\ Grid._lock_gpts g = lock_gpts /\
      Grid._lock_sampling g = lock_sampling) /\
  (forall name value g st r g' st',
      Grid.setattr name value (g, st) = (r, (g', st')) -> grid_fixed g g') /\
  (forall (check_match : bool) A B st r A' B' st',
      Grid.match_ same_object check_match (A, B, st) = (r, (A', B', st')) ->
      grid_fixed A A' /\ grid_fixed B B').
Proof.
  split; [| split].
  - intros extent gpts sampling dims endpoint le lg lsm g.
    unfold Grid.__init__, lock_count.
    case Z.gtb_spec; [discriminate |]. intros Hlocks.
    run_fset. intros Hrun. grid_cases; repeat split; assumption.
  - intros name value g st r g' st' Hset.
    pose proof (setattr_fixed name value g st) as H.
    rewrite Hset in H. exact H.
  - intros check_match A B st r A' B' st' Hrun.
    destruct (match_fixed check_match (A, B, st)) as [H _].
    rewrite Hrun in H. exact H.
Qed.

End grid_fixed_facts.
